(** * ODrive motor-control utilities: [Firmware/MotorControl/utils.cpp]

    A shallow embedding of the numeric helpers of the firmware:
    the space-vector modulator [SVM], the polynomial arctangent
    [fast_atan2], the millisecond deadline helpers, the microsecond
    clock [micros] with the busy wait [delay_us], and the static table
    [pdf_table].

    The C++ type [float] is read in two ways.  The code is written once,
    over an interface of float operations ([FloatArith]).  The instance
    [binary32] is IEEE-754 single precision with round-to-nearest-even,
    built on the standard library's [SpecFloat], so every definition
    evaluates; each operation of the source rounds once (a compiler may
    contract a product and a sum into one fused operation: that is not
    modelled).  The instance [exact] is arithmetic over the real numbers,
    the reading under which the geometric statements about the modulator
    (the disc of valid inputs, continuity across sextants) are made.

    Statements that concern how the code branches, what it returns on
    NaN, on the alpha axis or at the origin are proved over [binary32]
    for all floats; statements about regions of the plane are proved
    over [exact]. *)

From Stdlib Require Import ZArith List Bool Lia.
From Stdlib Require Import SpecFloat.
From Stdlib Require Import Reals Lra Psatz Machin.
From Stdlib Require Import QArith Qreals.
Import ListNotations.

Local Open Scope Z_scope.

(** ** Decimal literals

    A literal such as [0.327622764f] is kept as it is written: an
    integer mantissa and the number of digits after the point. *)

Record literal : Set := Lit { lit_mantissa : Z; lit_scale : nat }.

Definition literal_of_number (n : Number.number) : option literal :=
  match n with
  | Number.Decimal (Decimal.Decimal i f) =>
      Some (Lit (Z.of_int (Decimal.app_int i f)) (Decimal.nb_digits f))
  | _ => None
  end.

Definition number_of_literal (l : literal) : option Number.number :=
  match lit_scale l with
  | O => Some (Number.Decimal (Decimal.Decimal (Z.to_int (lit_mantissa l)) Decimal.Nil))
  | _ => None
  end.

Declare Scope lit_scope.
Delimit Scope lit_scope with lit.
Bind Scope lit_scope with literal.
Number Notation literal literal_of_number number_of_literal : lit_scope.

(** ** The interface of float operations used by the firmware *)

Class FloatArith (F : Type) : Type := {
  fadd : F -> F -> F;
  fsub : F -> F -> F;
  fmul : F -> F -> F;
  fdiv : F -> F -> F;
  fneg : F -> F;
  fabs : F -> F;                 (* std::abs *)
  fltb : F -> F -> bool;         (* a < b *)
  fleb : F -> F -> bool;         (* a <= b *)
  flit : literal -> F;           (* a literal with suffix f *)
  numeric_limits_min : F         (* std::numeric_limits<float>::min() *)
}.

Declare Scope flt_scope.
Delimit Scope flt_scope with flt.
Infix "+" := fadd : flt_scope.
Infix "-" := fsub : flt_scope.
Infix "*" := fmul : flt_scope.
Infix "/" := fdiv : flt_scope.
Notation "- x" := (fneg x) : flt_scope.
Notation "a <? b" := (fltb a b) : flt_scope.
Notation "a <=? b" := (fleb a b) : flt_scope.
Notation "a >? b" := (fltb b a) : flt_scope.
Notation "a >=? b" := (fleb b a) : flt_scope.

(** ** IEEE-754 binary32 *)

Module Binary32.

Definition prec : Z := 24.
Definition emax : Z := 128.

Definition of_Z (m : Z) : spec_float :=
  match m with
  | Z0 => S754_zero false
  | Zpos p => S754_finite false p 0
  | Zneg p => S754_finite true p 0
  end.

(** The float nearest to [m / 10^k] (ties to even): the correctly
    rounded quotient of two integers. *)
Definition of_literal (l : literal) : spec_float :=
  SFdiv prec emax (of_Z (lit_mantissa l))
                  (S754_finite false (Z.to_pos (10 ^ Z.of_nat (lit_scale l))) 0).

(** FLT_MIN, the least positive normal number [2^-126]. *)
Definition FLT_MIN : spec_float := S754_finite false 8388608 (-149).

#[global] Instance binary32 : FloatArith spec_float := {
  fadd := SFadd prec emax;
  fsub := SFsub prec emax;
  fmul := SFmul prec emax;
  fdiv := SFdiv prec emax;
  fneg := SFopp;
  fabs := SFabs;
  fltb := SFltb;
  fleb := SFleb;
  flit := of_literal;
  numeric_limits_min := FLT_MIN
}.

(** The IEEE bit pattern of a float (sign, biased exponent, fraction),
    used to name inputs and results of examples. *)
Definition bits (x : spec_float) : Z :=
  match x with
  | S754_zero s => if s then 0x80000000 else 0
  | S754_infinity s => if s then 0xFF800000 else 0x7F800000
  | S754_nan => 0x7FC00000
  | S754_finite s m e =>
      (if s then 0x80000000 else 0) +
      (if Zpos m <? 0x800000 then Zpos m
       else (e + 150) * 0x800000 + (Zpos m - 0x800000))
  end.

Definition of_bits (b : Z) : spec_float :=
  let s := Z.testbit b 31 in
  let e := Z.land (Z.shiftr b 23) 0xFF in
  let f := Z.land b 0x7FFFFF in
  if e =? 0 then
    match f with Zpos p => S754_finite s p (-149) | _ => S754_zero s end
  else if e =? 255 then
    if f =? 0 then S754_infinity s else S754_nan
  else S754_finite s (Z.to_pos (f + 0x800000)) (e - 150).

(** A mantissa and exponent in canonical position; the mantissa may be
    zero, which pins the exponent to [emin]. *)
Definition canonical_pair (m e : Z) : Prop :=
  0 <= m /\ fexp prec emax (Zdigits2 m + e) = e.

End Binary32.

(** ** The code of [utils.cpp], over the interface *)

Section MotorControl.

Context {F : Type} {FA : FloatArith F}.

(** [one_by_sqrt3] and [two_by_sqrt3] are constants of [utils.hpp]. *)
Variables one_by_sqrt3 two_by_sqrt3 : F.

Local Open Scope flt_scope.

(** The sextant classification at the head of [SVM]. *)
Definition Sextant (alpha beta : F) : Z :=
  if beta >=? flit 0.0 then
    if alpha >=? flit 0.0 then
      (* quadrant I *)
      if one_by_sqrt3 * beta >? alpha then 2 else 1
    else
      (* quadrant II *)
      if - one_by_sqrt3 * beta >? alpha then 3 else 2
  else
    if alpha >=? flit 0.0 then
      (* quadrant IV *)
      if - one_by_sqrt3 * beta >? alpha then 5 else 6
    else
      (* quadrant III *)
      if one_by_sqrt3 * beta >? alpha then 4 else 5.

(** The [switch (Sextant)] of [SVM]: the three timings, or [None] where
    no [case] matches and the timings stay uninitialised. *)
Definition duty_cycles (sextant : Z) (alpha beta : F) : option (F * F * F) :=
  match sextant with
  | 1%Z =>
      let t1 := alpha - one_by_sqrt3 * beta in
      let t2 := two_by_sqrt3 * beta in
      let tA := (flit 1.0 - t1 - t2) * flit 0.5 in
      let tB := tA + t1 in
      let tC := tB + t2 in
      Some (tA, tB, tC)
  | 2%Z =>
      let t2 := alpha + one_by_sqrt3 * beta in
      let t3 := - alpha + one_by_sqrt3 * beta in
      let tB := (flit 1.0 - t2 - t3) * flit 0.5 in
      let tA := tB + t3 in
      let tC := tA + t2 in
      Some (tA, tB, tC)
  | 3%Z =>
      let t3 := two_by_sqrt3 * beta in
      let t4 := - alpha - one_by_sqrt3 * beta in
      let tB := (flit 1.0 - t3 - t4) * flit 0.5 in
      let tC := tB + t3 in
      let tA := tC + t4 in
      Some (tA, tB, tC)
  | 4%Z =>
      let t4 := - alpha + one_by_sqrt3 * beta in
      let t5 := - two_by_sqrt3 * beta in
      let tC := (flit 1.0 - t4 - t5) * flit 0.5 in
      let tB := tC + t5 in
      let tA := tB + t4 in
      Some (tA, tB, tC)
  | 5%Z =>
      let t5 := - alpha - one_by_sqrt3 * beta in
      let t6 := alpha - one_by_sqrt3 * beta in
      let tC := (flit 1.0 - t5 - t6) * flit 0.5 in
      let tA := tC + t5 in
      let tB := tA + t6 in
      Some (tA, tB, tC)
  | 6%Z =>
      let t6 := - two_by_sqrt3 * beta in
      let t1 := alpha + one_by_sqrt3 * beta in
      let tA := (flit 1.0 - t6 - t1) * flit 0.5 in
      let tC := tA + t1 in
      let tB := tC + t6 in
      Some (tA, tB, tC)
  | _ => None
  end.

(** [t >= 0.0f && t <= 1.0f] *)
Definition in_unit (t : F) : bool := (t >=? flit 0.0) && (t <=? flit 1.0).

Definition result_valid (tA tB tC : F) : bool :=
  (tA >=? flit 0.0) && (tA <=? flit 1.0)
  && (tB >=? flit 0.0) && (tB <=? flit 1.0)
  && (tC >=? flit 0.0) && (tC <=? flit 1.0).

Definition SVM (alpha beta : F) : option (F * F * F * bool) :=
  match duty_cycles (Sextant alpha beta) alpha beta with
  | Some (tA, tB, tC) => Some (tA, tB, tC, result_valid tA tB tC)
  | None => None
  end.

(** [std::min] and [std::max] of the C++ library. *)
Definition std_min (a b : F) : F := if b <? a then b else a.
Definition std_max (a b : F) : F := if a <? b then b else a.

Definition fast_atan2 (y x : F) : F :=
  let abs_y := fabs y in
  let abs_x := fabs x in
  let a := std_min abs_x abs_y / (std_max abs_x abs_y + numeric_limits_min) in
  let s := a * a in
  let r := ((- flit 0.0464964749 * s + flit 0.15931422) * s - flit 0.327622764) * s * a + a in
  let r := if abs_y >? abs_x then flit 1.57079637 - r else r in
  let r := if x <? flit 0.0 then flit 3.14159274 - r else r in
  let r := if y <? flit 0.0 then - r else r in
  r.

End MotorControl.

(** ** The exact reading: arithmetic over the real numbers *)

Module Exact.

Definition Rltb (x y : R) : bool := if Rlt_dec x y then true else false.
Definition Rleb (x y : R) : bool := if Rle_dec x y then true else false.

Definition of_literal (l : literal) : R :=
  (IZR (lit_mantissa l) / IZR (10 ^ Z.of_nat (lit_scale l)))%R.

Definition FLT_MIN : R := (/ IZR (2 ^ 126))%R.

#[global] Instance exact : FloatArith R := {
  fadd := Rplus;
  fsub := Rminus;
  fmul := Rmult;
  fdiv := Rdiv;
  fneg := Ropp;
  fabs := Rabs;
  fltb := Rltb;
  fleb := Rleb;
  flit := of_literal;
  numeric_limits_min := FLT_MIN
}.

End Exact.

(** ** The millisecond deadline helpers

    [uint32_t] and [uint64_t] values are integers reduced modulo [2^32]
    and [2^64].  [osKernelSysTick()] reads the kernel tick counter: the
    value read is the argument [tick].  [osKernelSysTickFrequency] is a
    macro of the RTOS headers. *)

Module Timing.

Definition uint32_t (z : Z) : Z := z mod 2 ^ 32.
Definition uint64_t (z : Z) : Z := z mod 2 ^ 64.

Section Kernel.

Variable osKernelSysTickFrequency : Z.

(** [(uint32_t)((1000ull * (uint64_t)osKernelSysTick()) / osKernelSysTickFrequency)] *)
Definition now_ms (tick : Z) : Z :=
  uint32_t (uint64_t (1000 * uint64_t tick) / osKernelSysTickFrequency).

Definition deadline_to_timeout (tick : Z) (deadline_ms : Z) : Z :=
  let now_ms := now_ms tick in
  let timeout_ms := uint32_t (deadline_ms - now_ms) in
  if negb (Z.land timeout_ms 0x80000000 =? 0) then 0 else timeout_ms.

Definition timeout_to_deadline (tick : Z) (timeout_ms : Z) : Z :=
  let now_ms := now_ms tick in
  uint32_t (now_ms + timeout_ms).

Definition is_in_the_future (tick : Z) (time_ms : Z) : Z :=
  deadline_to_timeout tick time_ms.

End Kernel.

End Timing.

(** ** The microsecond clock and the busy wait

    [micros] and [delay_us] read two things that change under the
    program: the millisecond counter returned by [HAL_GetTick()], which
    an interrupt increments, and the counter register of the time-base
    timer, [TIM_TIME_BASE->CNT].  What the n-th access to the hardware
    returns is given by two functions, [ms_at] and [cnt_at]; the state
    threaded through the code is the number of accesses made so far.
    The loops take fuel: [None] stands for a loop that is still running
    when the fuel is spent. *)

Module Board.

Import Timing.

Section Registers.

Variable ms_at : nat -> Z.
Variable cnt_at : nat -> Z.

Definition hw (A : Type) : Type := nat -> option (A * nat).

Definition ret {A : Type} (a : A) : hw A := fun n => Some (a, n).

Definition bind {A B : Type} (m : hw A) (k : A -> hw B) : hw B :=
  fun n => match m n with
           | Some (a, n') => k a n'
           | None => None
           end.

Definition spinning {A : Type} : hw A := fun _ => None.

Notation "x <- m ;; k" := (bind m (fun x => k))
  (at level 61, m at next level, right associativity).

(** The two reads; both registers are 32 bits wide. *)
Definition HAL_GetTick : hw Z := fun n => Some (uint32_t (ms_at n), S n).
Definition TIM_TIME_BASE_CNT : hw Z := fun n => Some (uint32_t (cnt_at n), S n).

(** [do { ms = HAL_GetTick(); cycle_cnt = TIM_TIME_BASE->CNT; }
     while (ms != HAL_GetTick());
     return (ms * 1000) + cycle_cnt;] *)
Fixpoint micros (fuel : nat) : hw Z :=
  match fuel with
  | O => spinning
  | S fuel' =>
      ms <- HAL_GetTick ;;
      cycle_cnt <- TIM_TIME_BASE_CNT ;;
      ms' <- HAL_GetTick ;;
      if negb (ms =? ms') then micros fuel'
      else ret (uint32_t (uint32_t (ms * 1000) + cycle_cnt))
  end.

(** [while (micros() - start < (uint32_t) us) { asm volatile ("nop"); }];
    [inner] is the fuel of each call of [micros]. *)
Fixpoint delay_us_wait (fuel inner : nat) (start us : Z) : hw unit :=
  match fuel with
  | O => spinning
  | S fuel' =>
      now <- micros inner ;;
      if uint32_t (now - start) <? uint32_t us
      then delay_us_wait fuel' inner start us
      else ret tt
  end.

Definition delay_us (fuel : nat) (us : Z) : hw unit :=
  start <- micros fuel ;;
  delay_us_wait fuel fuel start us.

(** One pass of the loop of [micros], begun at access [n]: whether its
    two readings of the millisecond counter agree, and the value the
    pass then yields. *)
Definition settled (n : nat) : bool :=
  uint32_t (ms_at n) =? uint32_t (ms_at (n + 2)).

Definition snapshot (n : nat) : Z :=
  uint32_t (uint32_t (uint32_t (ms_at n) * 1000) + uint32_t (cnt_at (n + 1))).

(** Successive calls of [micros] from state [t]: the values they return,
    in order, and the state they leave. *)
Fixpoint polls (fuel : nat) (t : nat) (l : list Z) (t' : nat) : Prop :=
  match l with
  | [] => t = t'
  | v :: l' => exists t1, micros fuel t = Some (v, t1) /\ polls fuel t1 l' t'
  end.

End Registers.

End Board.

(** A clock for examples: the millisecond counter stands at
    4294967, the timer register counts the accesses from 290, so that
    the microsecond value passes [2^32] at the seventh access. *)
Definition ms_near_wrap (n : nat) : Z := 4294967.
Definition cnt_near_wrap (n : nat) : Z := 290 + Z.of_nat n.

(** A millisecond counter that steps from 7 to 8 at the third access. *)
Definition ms_stepping (n : nat) : Z := if (n <? 2)%nat then 7 else 8.

(** A clock that keeps time: from the time in microseconds at each
    access, the millisecond counter holds the whole milliseconds and the
    timer register the microseconds within the millisecond. *)
Definition ms_of_time (time_at : nat -> Z) (n : nat) : Z := time_at n / 1000.
Definition cnt_of_time (time_at : nat -> Z) (n : nat) : Z := time_at n mod 1000.

(** The time for examples: it passes [2^32] microseconds at the seventh
    access and stands still after a thousand accesses. *)
Definition time_near_wrap (n : nat) : Z := 4294967290 + Z.min (Z.of_nat n) 1000.

(** ** The static table [pdf_table] *)

(** Modelled from the spec: the struct [lookup_table_t] is declared in
    [utils.hpp]; it holds the array of samples followed by two scalars,
    the origin offset and the domain span of the table. *)
Record lookup_table_t (F : Type) : Type := {
  lut_samples : list F;
  lut_origin : F;
  lut_span : F
}.
Arguments lut_samples {F} _.
Arguments lut_origin {F} _.
Arguments lut_span {F} _.

(** The initialiser list of [pdf_table], literal by literal. *)
Definition pdf_table_samples : list literal :=
  [
    0.3989422804014327; 0.3989300581391332; 0.3988933935988851;
    0.3988322935199517; 0.39874676913214424; 0.3986368361523825;
    0.39850251477988063; 0.39834382968996185; 0.3981608100265035;
    0.39795348939301645; 0.3977219058423624; 0.39746610186511305;
    0.3971861243765573; 0.39688202470236067; 0.3965538585628836;
    0.3962016860561666; 0.3958255716395864; 0.39542558411019496;
    0.3950017965837461; 0.3945542864724213; 0.3940831354612623;
    0.3935884294833223; 0.3930702586935447; 0.3925287174413817;
    0.3919639042421633; 0.39137592174723046; 0.3907648767128433;
    0.3901308799678786; 0.38947404638033023; 0.38879449482262635;
    0.38809234813577786; 0.38736773309237443; 0.3866207803584418;
    0.3858516244541779; 0.3850604037135844; 0.3842472602430091;
    0.38341233987861806; 0.3825557921428152; 0.38167777019962623;
    0.3807784308090673; 0.3798579342805163; 0.37891644442510614;
    0.377954128507161; 0.3769711571946941; 0.3759677045089885;
    0.37494394777328155; 0.37390006756057426; 0.37283624764058665;
    0.3717526749258812; 0.37064953941717693; 0.3695270341478755;
    0.36838535512782267; 0.367224701286328; 0.36604527441446577;
    0.36484727910668047; 0.36363092270172065; 0.3623964152229252;
    0.36114396931788534; 0.3598738001975069; 0.35858612557449837;
    0.3572811656013071; 0.35595914280753055; 0.35462028203682544;
    0.353264810383342; 0.35189295712770635; 0.35050495367257717;
    0.3491010334778021; 0.3476814319951985; 0.3462463866029853;
    0.34479613653988894; 0.3433309228389523; 0.3418509882610688;
    0.34035657722826945; 0.33884793575678757; 0.3373253113899265;
    0.33578895313075613; 0.3342391113746637; 0.33267603784178407;
    0.33109998550933467; 0.3295112085438813; 0.32790996223355795;
    0.3262965029202688; 0.3246710879318937; 0.32303397551452523;
    0.32138542476475995; 0.3197256955620692; 0.3180550485012739;
    0.3163737448251472; 0.31468204635716945; 0.3129802154344589;
    0.31126851484090257; 0.3095472077405091; 0.30781655761100957;
    0.30607682817772597; 0.30432828334773276; 0.30257118714433284;
    0.30080580364187; 0.2990323969009004; 0.2972512309037446;
    0.29546256949044136; 0.2936666762951241; 0.29186381468284217;
    0.29005424768684485; 0.28823823794635123; 0.28641604764482365;
    0.28458793844876473; 0.28275417144705794; 0.28091500709086953;
    0.2790707051341302; 0.2772215245746158; 0.2753677235956436;
    0.2735095595084014; 0.2716472886949274; 0.26978116655175655;
    0.2679114474342497; 0.26603838460162144; 0.2641622301626818;
    0.2622832350223072; 0.26040164882865413; 0.2585177199211308;
    0.2566316952791402; 0.2547438204716065; 0.2528543396073;
    0.2509634952859709; 0.24907152855030454; 0.24717867883871014;
    0.2452851839389532; 0.24339127994264306; 0.24149720120058496;
    0.23960318027900687; 0.23770944791667026; 0.23581623298287352;
    0.23392376243635668; 0.23203226128511475; 0.23014195254712805;
    0.22825305721201555; 0.22636579420361877; 0.22448038034352158;
    0.22259703031551226; 0.22071595663099206; 0.2188373695953363;
    0.2169614772752113; 0.21508848546685153; 0.21321859766530027;
    0.2113520150346169; 0.20948893637905314; 0.2076295581152005;
    0.2057740742451112; 0.20392267633039232; 0.20207555346727554;
    0.2002328922626626; 0.1983948768111455; 0.1965616886730021;
    0.19473350685316576; 0.192910507781168; 0.19109286529205227;
    0.18928075060825697; 0.18747433232246544; 0.18567377638141933;
    0.18387924607069356; 0.18209090200042746; 0.18030890209200973;
    0.17853340156571182; 0.17676455292926568; 0.1750025059673803;
    0.17324740773219213; 0.17149940253464305; 0.1697586319367805;
    0.16802523474497263; 0.16629934700403215; 0.16458110199224193;
    0.1628706302172743; 0.1611680594129971; 0.15947351453715822;
    0.15778711776993998; 0.15610898851337562; 0.154439243391618;
    0.15277799625205232; 0.15112535816724304; 0.14948143743770526;
    0.14784633959549104; 0.14622016740858024; 0.14460302088606564;
    0.14299499728412188; 0.1413961911127468; 0.13980669414326538;
    0.1382265954165837; 0.13665598125218248; 0.13509493525783814;
    0.13354353834005975; 0.13200186871522993; 0.13047000192143737;
    0.12894801083098936; 0.12743596566359075; 0.12593393400017808;
    0.12444198079739531; 0.12296016840269851; 0.12148855657007684;
    0.12002720247637659; 0.11857616073821506; 0.1171354834294712;
    0.1157052200993395; 0.114285417790934; 0.11287612106042864;
    0.11147737199672052; 0.11008921024160268; 0.10871167301043234;
    0.10734479511328113; 0.1059886089765538; 0.10464314466506122;
    0.10330842990453411; 0.10198449010456379; 0.10067134838195604;
    0.09936902558448425; 0.0980775403150281; 0.09679690895608406;
    0.09552714569463379; 0.09426826254735693; 0.09302026938617428;
    0.09178317396410805; 0.09055698194144524; 0.08934169691219071;
    0.0881373204307967; 0.08694385203915467; 0.08576128929383685;
    0.08458962779357368; 0.08342886120695409; 0.0822789813003355;
    0.08113997796595035; 0.08001183925019638; 0.0788945513820977;
    0.07778809880192387; 0.0766924641899544; 0.07560762849537611;
    0.07453357096530094; 0.07347026917389209; 0.0724176990515858;
    0.07137583491439758; 0.07034464949330013; 0.06932411396366181;
    0.06831419797473372; 0.0673148696791741; 0.0663260957625987;
    0.06534784147314576; 0.06438007065104494; 0.0634227457581791;
    0.06247582790762827; 0.06153927689318547; 0.060613051218833744;
    0.05969710812817459; 0.0587914036337974; 0.05789589254658028;
    0.05701052850491276; 0.05613526400383048; 0.05527005042405302;
    0.054414838060915446; 0.053569576153184834; 0.05273421291175291;
    0.05190869554819628; 0.05109297030319617; 0.05028698247480892;
    0.04949067644657963; 0.04870399571549143; 0.047926882919742154;
    0.047159279866341525; 0.04640112755852123; 0.0456523662229513;
    0.044912935336755916; 0.044182773654321404; 0.04346181923389076;
    0.04275000946393813; 0.042047281089317434; 0.041353570237178644;
    0.04066881244264677; 0.03999294267425798; 0.03932589535914722;
    0.03866760440798265; 0.03801800323964162; 0.03737702480562407;
    0.036744601614198284; 0.0361206657542751; 0.03550514891900595;
    0.03489798242910156; 0.034299097255866884; 0.033708424043948984;
    0.033125893133794375; 0.03255143458381279; 0.031984978192244364;
    0.03142645351872707; 0.03087578990556199; 0.030332916498673985;
    0.029797762268265478; 0.029270256029160772; 0.028750326460839443;
    0.028237902127156742; 0.02773291149574952; 0.02723528295712593;
    0.026744944843437687; 0.02626182544693405; 0.025785853038096006;
    0.02531695588345019; 0.024855062263061407; 0.024400100487703875;
    0.023951998915710208; 0.023510685969497996; 0.02307609015177397;
    0.02264814006141581; 0.02222676440903168; 0.02181189203219763;
    0.02140345191037351; 0.021001373179497945; 0.020605585146262845;
    0.0202160173020685; 0.019832599336659852; 0.019455261151445417;
    0.019083932872499668; 0.018718544863250305; 0.018359027736851587;
    0.018005312368245565; 0.017657329905912563; 0.01731501178331255;
    0.016978289730019254; 0.016647095782549085; 0.016321362294886597;
    0.016001021948708605; 0.015686007763309147; 0.01537625310522766;
    0.015071691697582445; 0.01477225762911202; 0.014477885362926692;
    0.014188509744973016; 0.013904066012213808; 0.013624489800526189;
    0.01334971715232059; 0.013079684523883521; 0.012814328792447023;
    0.012553587262987598; 0.012297397674757666; 0.012045698207552783;
    0.011798427487717466; 0.0115555245938929; 0.011316929062509659;
    0.011082580893028776; 0.010852420552934354; 0.010626388982481028;
    0.010404427599199633; 0.010186478302164537; 0.009972483476025959;
    0.009762385994810748; 0.009556129225495048; 0.009353657031352429;
    0.009154913775080991; 0.008959844321712818; 0.008768394041309508;
    0.0085805088114473; 0.008396135019495364; 0.008215219564690799;
    0.008037709860013986; 0.007863553833867946; 0.007692699931565255;
    0.007525097116626139; 0.0073606948718913405; 0.0071994432004534835;
    0.007041292626410458; 0.00688619419544446; 0.00673409947523025;
    0.0065849605556763625; 0.006438730049002751; 0.0062953610896584675;
    0.006154807334082934; 0.006017022960314446; 0.005881962667449388;
    0.005749581674955691; 0.005619835721844013; 0.005492681065700254;
    0.005368074481582783; 0.005245973260787816; 0.005126335209486422;
    0.005009118647236573; 0.004894282405373627; 0.004781785825282496;
    0.004671588756554979; 0.00456365155503548; 0.004457935080758396;
    0.0043544006957804355; 0.004253010261911042; 0.004153726138344199;
    0.004056511179194654; 0.003961328730941773; 0.0038681426297840424;
    0.0037769171989073106; 0.003687617245669815; 0.0036002080587068832;
    0.0035146554049583175; 0.0034309255266213863; 0.003348985138032263;
    0.003268801422478729; 0.0031903420289469513; 0.00311357506880513;
    0.0030384691124266793; 0.0029649931857556313; 0.002893116766816901;
    0.002822809782174038; 0.002754042603336996; 0.0026867860431224197;
    0.002621011351968954; 0.002556690214209995; 0.002493794744306305;
    0.00243229748304078; 0.0023721713936777347; 0.002313389858088947;
    0.0022559266728487235; 0.0021997560453001; 0.0021448525895943773;
    0.0020911913227060963; 0.0020387476604254717; 0.001987497413330323;
    0.001937416782739479; 0.0018884823566495828; 0.0018406711056572096;
    0.0017939603788681162; 0.001748327899795431; 0.0017037517622486098;
    0.0016602104262148129; 0.0016176827137344306; 0.0015761478047723872;
    0.0015355852330868464; 0.0014959748820968712; 0.001457296980750563;
    0.0014195320993951697; 0.0013826611456506177; 0.0013466653602878732;
    0.0013115263131134962; 0.0012772258988617128; 0.001243746333095337;
    0.0012110701481167542; 0.0011791801888902161; 0.0011480596089766058;
    0.001117691866481844; 0.0010880607200200465; 0.001059150224692475;
    0.0010309447280833599; 0.001003428866273584; 0.0009765875598732037;
    0.0009504060100737303; 0.0009248696947210947; 0.00089996436441016;
    0.0008756760386016163; 0.0008519910017620717; 0.0008288957995281015;
    0.0008063772348950203; 0.0007844223644310747; 0.0007630184945177477;
    0.0007421531776168175; 0.0007218142085648148; 0.0007019896208954637;
    0.0006826676831906661; 0.0006638368954605862; 0.0006454859855533397;
    0.0006276039055947795; 0.000610179828458829; 0.0005932031442688042;
    0.0005766634569301406; 0.0005605505806949011; 0.0005448545367584255;
    0.0005295655498884626; 0.000514674045087103; 0.0005001706442857968;
    0.0004860461630737295; 0.00047229160745979894; 0.0004588981706684316;
    0.000445857229969429; 0.00043316034354204326; 0.00042079924737343605;
    0.00040876585219167655; 0.0003970522404334046; 0.00038565066324626403;
    0.00037455353752620027; 0.00036375344298970067; 0.00035324311928103177;
    0.00034301546311451127; 0.00033306352545184423; 0.0003233805087145333;
    0.00031395976403135624; 0.0003047947885208891; 0.00029587922260903844;
    0.00028720684738154403; 0.0002787715819713808; 0.0002705674809809877;
    0.00026258873193923856; 0.00025482965279305326; 0.00024728468943354277;
    0.00023994841325655853; 0.00023281551875751883; 0.00022588082116036564;
    0.0002191392540805011; 0.00021258586722153612; 0.00020621582410567757;
    0.00020002439983757774; 0.00019400697890145104; 0.00018815905299125616;
    0.00018247621887374133; 0.00017695417628413716; 0.0001715887258542725;
    0.00016637576707288518; 0.00016131129627789266; 0.00015639140468037913;
    0.00015161227642005386; 0.00014697018665192095; 0.00014246149966390712;
    0.00013808266702517921; 0.00013383022576488537
  ]%lit.

Definition pdf_table {F : Type} {FA : FloatArith F} : lookup_table_t F := {|
  lut_samples := map flit pdf_table_samples;
  lut_origin := flit 0.0;
  lut_span := flit 4.0
|}.

(** Order checks on the table: a comparison of two literals by cross
    multiplication, and a list whose every entry is below the one
    before it. *)
Definition lit_ltb (a b : literal) : bool :=
  lit_mantissa a * 10 ^ Z.of_nat (lit_scale b) <? lit_mantissa b * 10 ^ Z.of_nat (lit_scale a).

Fixpoint descending {A : Type} (ltb : A -> A -> bool) (l : list A) : bool :=
  match l with
  | a :: (b :: _) as t => ltb b a && descending ltb t
  | _ => true
  end.

(** ** The firmware over binary32 *)

Module F32.

Import Binary32.

(** Modelled from the spec: [one_by_sqrt3] and [two_by_sqrt3] are
    defined in [utils.hpp]; the spec calls them the constants 1/sqrt(3)
    and 2/sqrt(3).  As [float] constants they are the binary32 numbers
    nearest to these, [0x3F13CD3A] and [0x3F93CD3A]. *)
Definition one_by_sqrt3 : spec_float := flit 0.57735026919.
Definition two_by_sqrt3 : spec_float := flit 1.15470053838.

Definition Sextant : spec_float -> spec_float -> Z := Sextant one_by_sqrt3.
Definition SVM : spec_float -> spec_float -> option (spec_float * spec_float * spec_float * bool) :=
  SVM one_by_sqrt3 two_by_sqrt3.
Definition fast_atan2 : spec_float -> spec_float -> spec_float := fast_atan2.

(** Zeros and finite numbers, as opposed to infinities and NaN. *)
Definition is_finite (x : spec_float) : bool :=
  match x with
  | S754_zero _ | S754_finite _ _ _ => true
  | _ => false
  end.

(** The value of a float as a real number (zero for infinities and NaN). *)
Definition to_R (x : spec_float) : R :=
  match x with
  | S754_finite s m e =>
      let v := (if (0 <=? e)%Z then IZR (Zpos m * 2 ^ e) else IZR (Zpos m) / IZR (2 ^ (- e)))%R in
      if s then (- v)%R else v
  | _ => 0%R
  end.

End F32.

(** ** The firmware in exact arithmetic *)

Module Ideal.

Import Exact.

(** Modelled from the spec: the constants of [utils.hpp], 1/sqrt(3) and
    2/sqrt(3), in exact arithmetic. *)
Definition one_by_sqrt3 : R := (/ sqrt 3)%R.
Definition two_by_sqrt3 : R := (2 / sqrt 3)%R.

Definition SVM : R -> R -> option (R * R * R * bool) := SVM one_by_sqrt3 two_by_sqrt3.
Definition fast_atan2 : R -> R -> R := fast_atan2.

End Ideal.

(** ** Reference definitions *)

Section Reference.

Context {F : Type} {FA : FloatArith F}.

Local Open Scope flt_scope.



End Reference.

(** Centre-aligned modulation in closed form, in exact arithmetic: the
    three phase projections of the vector for a constant [c] standing
    for [one_by_sqrt3], the mid-point of the largest and the least of
    them, and the timing of a phase placed around that mid-point. *)
Module Centred.

Section Phases.

Variable c : R.

Local Open Scope R_scope.




End Phases.

End Centred.




(** ** The table against the normal density *)








(** * Properties *)

(** ** Facts about binary32 operations *)

Module Binary32Facts.

Import Binary32.

Lemma flit_0 : flit 0.0 = S754_zero false.
Proof. reflexivity. Qed.

Lemma flit_1 : flit 1.0 = S754_finite false 8388608 (-23).
Proof. reflexivity. Qed.

Lemma flit_half : flit 0.5 = S754_finite false 8388608 (-24).
Proof. reflexivity. Qed.

Lemma SFadd_nan_l x : SFadd prec emax S754_nan x = S754_nan.
Proof. reflexivity. Qed.

Lemma SFadd_nan_r x : SFadd prec emax x S754_nan = S754_nan.
Proof. destruct x; reflexivity. Qed.

Lemma SFsub_nan_l x : SFsub prec emax S754_nan x = S754_nan.
Proof. reflexivity. Qed.

Lemma SFsub_nan_r x : SFsub prec emax x S754_nan = S754_nan.
Proof. destruct x; reflexivity. Qed.

Lemma SFmul_nan_l x : SFmul prec emax S754_nan x = S754_nan.
Proof. reflexivity. Qed.

Lemma SFmul_nan_r x : SFmul prec emax x S754_nan = S754_nan.
Proof. destruct x; reflexivity. Qed.

Lemma SFleb_nan_l x : SFleb S754_nan x = false.
Proof. reflexivity. Qed.

Lemma SFleb_nan_r x : SFleb x S754_nan = false.
Proof. destruct x; reflexivity. Qed.

Lemma SFltb_nan_l x : SFltb S754_nan x = false.
Proof. reflexivity. Qed.

Lemma SFltb_nan_r x : SFltb x S754_nan = false.
Proof. destruct x; reflexivity. Qed.

(** Two floats that compare equal are not ordered strictly. *)
Lemma SFeqb_not_ltb x y : SFeqb x y = true -> SFltb x y = false.
Proof.
  unfold SFeqb, SFltb. destruct (SFcompare x y) as [[ | | ] | ]; congruence.
Qed.

(** Comparisons against a zero of either sign. *)
Lemma SFleb_zero_not_ltb s s' x :
  SFleb (S754_zero s) x = true -> SFltb x (S754_zero s') = false.
Proof.
  destruct x as [ sx | [ | ] | | [ | ] m e]; unfold SFleb, SFltb; simpl;
    congruence.
Qed.

Lemma SFltb_zero_any s s' x :
  SFltb x (S754_zero s) = true ->
  SFltb x (S754_zero s') = true /\ SFleb (S754_zero s') x = false.
Proof.
  destruct x as [ sx | [ | ] | | [ | ] m e]; unfold SFleb, SFltb; simpl;
    try congruence; auto.
Qed.

(** Subtracting is adding the opposite, bit for bit. *)
Lemma SFsub_as_add x y : SFsub prec emax x y = SFadd prec emax x (SFopp y).
Proof.
  destruct x as [sx | sx | | sx mx ex], y as [sy | sy | | sy my ey];
    try reflexivity;
    destruct sx, sy; reflexivity.
Qed.

(** *** Rounding keeps the sign

    The mantissa handed to the rounding functions is shifted right to
    its canonical exponent; as long as the value is above the least
    subnormal the shift leaves a positive mantissa, so the result is a
    finite float of the same sign, or an infinity, never a zero. *)

Lemma digits2_pos_size p : digits2_pos p = Pos.size p.
Proof. induction p; simpl; congruence. Qed.

Lemma Zdigits2_log2 p : Zdigits2 (Zpos p) = Z.log2 (Zpos p) + 1.
Proof.
  unfold Zdigits2. rewrite digits2_pos_size.
  destruct p; simpl; try rewrite Pos2Z.inj_succ; lia.
Qed.

Lemma Zdigits2_pos p : 0 < Zdigits2 (Zpos p).
Proof. rewrite Zdigits2_log2. pose proof (Z.log2_nonneg (Zpos p)). lia. Qed.

Lemma shr_1_div2 mrs : 0 <= shr_m mrs -> shr_m (shr_1 mrs) = shr_m mrs / 2.
Proof.
  destruct mrs as [m r s]. cbn [shr_m]. intros Hm.
  destruct m as [ | [p | p | ] | p ]; cbn [shr_1 shr_m].
  - reflexivity.
  - apply Z.div_unique with 1; lia.
  - apply Z.div_unique with 0; lia.
  - reflexivity.
  - lia.
Qed.

Lemma iter_shr_1_div p : forall mrs,
  0 <= shr_m mrs -> shr_m (SpecFloat.iter_pos shr_1 p mrs) = shr_m mrs / 2 ^ Zpos p.
Proof.
  induction p as [p IH | p IH | ]; intros mrs Hm; cbn [SpecFloat.iter_pos].
  - assert (H1 : 0 <= shr_m mrs / 2) by (apply Z.div_pos; lia).
    assert (H2 : 0 <= shr_m mrs / 2 / 2 ^ Zpos p) by (apply Z.div_pos; lia).
    rewrite IH by (rewrite IH, shr_1_div2 by (rewrite ?shr_1_div2; assumption); assumption).
    rewrite IH by (rewrite shr_1_div2; assumption).
    rewrite shr_1_div2 by assumption.
    rewrite !Z.div_div by lia.
    f_equal. rewrite Pos2Z.inj_xI, Z.pow_add_r, Z.pow_mul_r by lia.
    change (2 ^ 2) with 4. rewrite Z.pow_1_r.
    replace (4 ^ Zpos p) with (2 ^ Zpos p * 2 ^ Zpos p).
    + lia.
    + rewrite <- Z.pow_add_r by lia. replace (Zpos p + Zpos p) with (2 * Zpos p) by lia.
      rewrite Z.pow_mul_r by lia. reflexivity.
  - assert (H2 : 0 <= shr_m mrs / 2 ^ Zpos p) by (apply Z.div_pos; lia).
    rewrite IH by (rewrite IH; assumption).
    rewrite IH by assumption.
    rewrite !Z.div_div by lia.
    f_equal. rewrite Pos2Z.inj_xO.
    rewrite <- Z.pow_add_r by lia. f_equal. lia.
  - rewrite shr_1_div2 by assumption. reflexivity.
Qed.

Lemma Zdigits2_log2_pos z : 0 < z -> Zdigits2 z = Z.log2 z + 1.
Proof. destruct z; try lia. intros _. apply Zdigits2_log2. Qed.

Lemma shr_m_of_loc m l : shr_m (shr_record_of_loc m l) = m.
Proof. destruct l as [ | [ | | ] ]; reflexivity. Qed.

(** Shifting a positive mantissa down to its canonical exponent keeps it
    positive and keeps its order of magnitude. *)
Lemma shr_fexp_pos (M : positive) (E : Z) (l : location) :
  emin prec emax < Zdigits2 (Zpos M) + E ->
  0 < shr_m (fst (shr_fexp prec emax (Zpos M) E l))
  /\ Zdigits2 (shr_m (fst (shr_fexp prec emax (Zpos M) E l)))
     + snd (shr_fexp prec emax (Zpos M) E l)
     = Zdigits2 (Zpos M) + E.
Proof.
  intros Hmin.
  unfold shr_fexp, shr.
  set (d := Zdigits2 (Zpos M)) in *.
  assert (Hd : d = Z.log2 (Zpos M) + 1) by apply Zdigits2_log2.
  pose proof (Z.log2_nonneg (Zpos M)) as Hl.
  destruct (fexp prec emax (d + E) - E) as [ | n | n ] eqn:En;
    cbn [fst snd]; rewrite ?shr_m_of_loc; fold d; try (split; lia).
  assert (Hn : Zpos n < d).
  { unfold fexp, emin, prec, emax in *. lia. }
  rewrite iter_shr_1_div by (rewrite shr_m_of_loc; lia).
  rewrite shr_m_of_loc.
  assert (Hpow : 2 ^ Zpos n <= Zpos M).
  { apply Z.le_trans with (2 ^ Z.log2 (Zpos M)).
    - apply Z.pow_le_mono_r; lia.
    - apply Z.log2_spec. lia. }
  assert (Hq : 0 < Zpos M / 2 ^ Zpos n).
  { apply Z.div_str_pos. split; [ apply Z.pow_pos_nonneg; lia | exact Hpow ]. }
  split; [ exact Hq | ].
  rewrite (Zdigits2_log2_pos _ Hq).
  rewrite <- Z.shiftr_div_pow2 by lia.
  rewrite Z.log2_shiftr by lia.
  lia.
Qed.

Lemma round_nearest_even_bounds m l :
  0 < m -> m <= round_nearest_even m l <= m + 1.
Proof.
  intros Hm. destruct l as [ | [ | | ] ]; cbn [round_nearest_even]; try lia.
  destruct (Z.even m); lia.
Qed.

(** Rounding a positive mantissa whose value is above the least
    subnormal never gives zero, nor NaN: it gives a finite float of the
    same sign and at least the same order of magnitude, or the infinity
    of that sign. *)
Lemma binary_round_aux_nonzero (s : bool) (M : positive) (E : Z) (l : location) :
  emin prec emax < Zdigits2 (Zpos M) + E ->
  (exists m e,
      binary_round_aux prec emax s (Zpos M) E l = S754_finite s m e
      /\ Zdigits2 (Zpos M) + E <= Zdigits2 (Zpos m) + e)
  \/ binary_round_aux prec emax s (Zpos M) E l = S754_infinity s.
Proof.
  intros Hmin.
  unfold binary_round_aux.
  destruct (shr_fexp_pos M E l Hmin) as [Hpos Hdig].
  destruct (shr_fexp prec emax (Zpos M) E l) as [mrs' e'].
  cbn [fst snd] in Hpos, Hdig.
  pose proof (round_nearest_even_bounds (shr_m mrs') (loc_of_shr_record mrs') Hpos) as Hr.
  set (M1 := round_nearest_even (shr_m mrs') (loc_of_shr_record mrs')) in *.
  destruct M1 as [ | q | q ] eqn:EM1; try lia.
  assert (Hdig1 : Zdigits2 (shr_m mrs') <= Zdigits2 (Zpos q)).
  { rewrite (Zdigits2_log2_pos _ Hpos), Zdigits2_log2.
    pose proof (Z.log2_le_mono (shr_m mrs') (Zpos q)). lia. }
  destruct (shr_fexp_pos q e' loc_Exact ltac:(lia)) as [Hpos2 Hdig2].
  destruct (shr_fexp prec emax (Zpos q) e' loc_Exact) as [mrs'' e''].
  cbn [fst snd] in Hpos2, Hdig2.
  destruct (shr_m mrs'') as [ | m | m ]; try lia.
  destruct (e'' <=? emax - prec).
  - left. exists m, e''. split; [ reflexivity | lia ].
  - right. reflexivity.
Qed.

Lemma digits2_pos_iter_xO m d :
  Zpos (digits2_pos (Pos.iter xO m d)) = Zpos (digits2_pos m) + Zpos d.
Proof.
  induction d as [ | d IH ] using Pos.peano_ind.
  - cbn. lia.
  - rewrite Pos.iter_succ. cbn [digits2_pos].
    rewrite Pos2Z.inj_succ, IH. lia.
Qed.

Lemma binary_round_nonzero (s : bool) (m : positive) (e : Z) :
  emin prec emax < Zdigits2 (Zpos m) + e ->
  (exists m' e',
      binary_round prec emax s m e = S754_finite s m' e'
      /\ Zdigits2 (Zpos m) + e <= Zdigits2 (Zpos m') + e')
  \/ binary_round prec emax s m e = S754_infinity s.
Proof.
  intros Hmin. unfold binary_round, shl_align.
  destruct (fexp prec emax (Zpos (digits2_pos m) + e) - e) as [ | d | d ] eqn:Ed.
  - apply binary_round_aux_nonzero. exact Hmin.
  - apply binary_round_aux_nonzero. exact Hmin.
  - assert (Hs : Zdigits2 (Zpos (Pos.iter xO m d)) + fexp prec emax (Zpos (digits2_pos m) + e)
                 = Zdigits2 (Zpos m) + e).
    { cbn [Zdigits2]. rewrite digits2_pos_iter_xO. lia. }
    destruct (binary_round_aux_nonzero s (Pos.iter xO m d)
                (fexp prec emax (Zpos (digits2_pos m) + e)) loc_Exact ltac:(lia))
      as [(m' & e' & Hr & Hd) | Hr].
    + left. exists m', e'. split; [ exact Hr | lia ].
    + right. exact Hr.
Qed.

Lemma pos_iter_xO_pow m d : Zpos (Pos.iter xO m d) = Zpos m * 2 ^ Zpos d.
Proof.
  induction d as [ | d IH ] using Pos.peano_ind.
  - cbn. lia.
  - rewrite Pos.iter_succ, Pos2Z.inj_xO, IH, Pos2Z.inj_succ, Z.pow_succ_r by lia. lia.
Qed.

Lemma shl_align_value m e e' :
  e' <= e -> Zpos (fst (shl_align m e e')) = Zpos m * 2 ^ (e - e').
Proof.
  intros Hle. unfold shl_align.
  destruct (e' - e) as [ | d | d ] eqn:Ed; cbn [fst]; try lia.
  - replace (e - e') with 0 by lia. rewrite Z.pow_0_r. lia.
  - rewrite pos_iter_xO_pow. f_equal. f_equal. lia.
Qed.






Lemma SFleb_zero_negative m e : SFleb (S754_zero false) (S754_finite true m e) = false.
Proof. reflexivity. Qed.


(** *** Rounding gives valid floats *)

Lemma Zdigits2_nonneg m : 0 <= Zdigits2 m.
Proof. destruct m; cbn; lia. Qed.

Lemma Zdigits2_div_pow2 m n :
  0 < m -> 0 <= n -> 0 < m / 2 ^ n -> Zdigits2 (m / 2 ^ n) = Zdigits2 m - n.
Proof.
  intros Hm Hn Hq.
  rewrite (Zdigits2_log2_pos _ Hq), (Zdigits2_log2_pos _ Hm).
  rewrite <- Z.shiftr_div_pow2 by lia.
  rewrite Z.log2_shiftr by lia.
  assert (Hl : n <= Z.log2 m).
  { destruct (Z.le_gt_cases n (Z.log2 m)) as [H | H]; [ exact H | exfalso ].
    assert (m < 2 ^ n).
    { apply Z.lt_le_trans with (2 ^ Z.succ (Z.log2 m)).
      - apply Z.log2_spec. lia.
      - apply Z.pow_le_mono_r; lia. }
    rewrite Z.div_small in Hq by lia. lia. }
  lia.
Qed.

Lemma div_pow2_zero m n : 0 <= m -> 0 <= n -> m / 2 ^ n = 0 -> Zdigits2 m <= n.
Proof.
  intros Hm Hn Hq.
  destruct (Z.eq_dec m 0) as [-> | Hne]; [ cbn; lia | ].
  rewrite (Zdigits2_log2_pos m) by lia.
  destruct (Z.le_gt_cases (Z.log2 m + 1) n) as [H | H]; [ exact H | exfalso ].
  assert (2 ^ n <= m).
  { apply Z.le_trans with (2 ^ Z.log2 m).
    - apply Z.pow_le_mono_r; lia.
    - apply Z.log2_spec. lia. }
  assert (0 < m / 2 ^ n).
  { apply Z.div_str_pos. split; [ apply Z.pow_pos_nonneg; lia | assumption ]. }
  lia.
Qed.

(** Shifting down to the canonical exponent gives a canonical pair. *)
Lemma shr_fexp_canonical (m e : Z) (l : location) :
  0 <= m -> e <= fexp prec emax (Zdigits2 m + e) ->
  canonical_pair (shr_m (fst (shr_fexp prec emax m e l))) (snd (shr_fexp prec emax m e l)).
Proof.
  intros Hm Hn. unfold shr_fexp, shr, canonical_pair.
  destruct (fexp prec emax (Zdigits2 m + e) - e) as [ | n | n ] eqn:En;
    cbn [fst snd]; rewrite ?shr_m_of_loc; try lia.
  rewrite iter_shr_1_div by (rewrite shr_m_of_loc; exact Hm).
  rewrite shr_m_of_loc.
  assert (Hq : 0 <= m / 2 ^ Zpos n) by (apply Z.div_pos; lia).
  split; [ exact Hq | ].
  pose proof (Zdigits2_nonneg m) as Hd.
  destruct (Z.eq_dec (m / 2 ^ Zpos n) 0) as [H0 | Hne].
  - rewrite H0. cbn [Zdigits2].
    pose proof (div_pow2_zero m (Zpos n) Hm ltac:(lia) H0) as Hdn.
    unfold fexp, emin, prec, emax in *. lia.
  - assert (Hmpos : 0 < m).
    { destruct (Z.eq_dec m 0) as [-> | ]; [ | lia ].
      rewrite Z.div_0_l in Hne by lia. lia. }
    rewrite Zdigits2_div_pow2 by lia.
    unfold fexp, emin, prec, emax in *. lia.
Qed.

Lemma Zdigits2_succ_cases m :
  0 <= m -> Zdigits2 (m + 1) = Zdigits2 m \/
            (Zdigits2 (m + 1) = Zdigits2 m + 1 /\ m + 1 = 2 ^ Zdigits2 m).
Proof.
  intros Hm.
  destruct (Z.eq_dec m 0) as [-> | Hne]; [ right; cbn; lia | ].
  assert (Hp : 0 < m) by lia.
  rewrite (Zdigits2_log2_pos m Hp), (Zdigits2_log2_pos (m + 1)) by lia.
  pose proof (Z.log2_spec m Hp) as Hs.
  destruct (Z.eq_dec (m + 1) (2 ^ Z.succ (Z.log2 m))) as [He | Hn].
  - right. split; [ | rewrite He; f_equal; lia ].
    rewrite He. rewrite Z.log2_pow2 by (pose proof (Z.log2_nonneg m); lia). lia.
  - left. f_equal.
    apply Z.log2_unique; [ apply Z.log2_nonneg | lia ].
Qed.

(** Rounding an aligned mantissa gives a valid float. *)
Lemma binary_round_aux_valid (s : bool) (m e : Z) (l : location) :
  0 <= m -> e <= fexp prec emax (Zdigits2 m + e) ->
  valid_binary prec emax (binary_round_aux prec emax s m e l) = true.
Proof.
  intros Hm Hn. unfold binary_round_aux.
  destruct (shr_fexp_canonical m e l Hm Hn) as [Hpos Hcan].
  destruct (shr_fexp prec emax m e l) as [mrs' e'].
  cbn [fst snd] in Hpos, Hcan.
  set (m1 := round_nearest_even (shr_m mrs') (loc_of_shr_record mrs')).
  assert (H1 : m1 = shr_m mrs' \/ m1 = shr_m mrs' + 1).
  { unfold m1. destruct (loc_of_shr_record mrs') as [ | [ | | ] ];
      cbn [round_nearest_even]; auto.
    destruct (Z.even (shr_m mrs')); auto. }
  assert (Hm1 : 0 <= m1) by lia.
  assert (Hn1 : e' <= fexp prec emax (Zdigits2 m1 + e')).
  { destruct H1 as [-> | ->]; [ lia | ].
    destruct (Zdigits2_succ_cases (shr_m mrs') Hpos) as [Hd | [Hd _]]; rewrite Hd.
    - lia.
    - unfold fexp, emin, prec, emax in *. lia. }
  destruct (shr_fexp_canonical m1 e' loc_Exact Hm1 Hn1) as [Hpos2 Hcan2].
  destruct (shr_fexp prec emax m1 e' loc_Exact) as [mrs'' e''].
  cbn [fst snd] in Hpos2, Hcan2.
  destruct (shr_m mrs'') as [ | p | p ]; try lia.
  - reflexivity.
  - destruct (e'' <=? emax - prec) eqn:Ee; [ | reflexivity ].
    cbn [valid_binary]. unfold SpecFloat.bounded, canonical_mantissa.
    rewrite Ee, andb_true_r. apply Z.eqb_eq. exact Hcan2.
Qed.

Lemma binary_round_valid (s : bool) (m : positive) (e : Z) :
  valid_binary prec emax (binary_round prec emax s m e) = true.
Proof.
  unfold binary_round, shl_align.
  destruct (fexp prec emax (Zpos (digits2_pos m) + e) - e) as [ | d | d ] eqn:Ed.
  - apply binary_round_aux_valid; [ lia | cbn [Zdigits2]; lia ].
  - apply binary_round_aux_valid; [ lia | cbn [Zdigits2]; lia ].
  - apply binary_round_aux_valid; [ lia | ].
    cbn [Zdigits2]. rewrite digits2_pos_iter_xO.
    replace (Zpos (digits2_pos m) + Zpos d + fexp prec emax (Zpos (digits2_pos m) + e))
      with (Zpos (digits2_pos m) + e) by lia.
    lia.
Qed.

Lemma binary_normalize_valid (m e : Z) (szero : bool) :
  valid_binary prec emax (binary_normalize prec emax m e szero) = true.
Proof.
  destruct m; cbn [binary_normalize]; [ reflexivity | | ]; apply binary_round_valid.
Qed.

Lemma SFopp_valid x :
  valid_binary prec emax x = true -> valid_binary prec emax (SFopp x) = true.
Proof. destruct x; auto. Qed.

Lemma SFadd_valid x y :
  valid_binary prec emax x = true -> valid_binary prec emax y = true ->
  valid_binary prec emax (SFadd prec emax x y) = true.
Proof.
  intros Hx Hy.
  destruct x as [sx | sx | | sx mx ex], y as [sy | sy | | sy my ey];
    try reflexivity; try assumption;
    try (destruct sx, sy; reflexivity).
  apply binary_normalize_valid.
Qed.

Lemma SFsub_valid x y :
  valid_binary prec emax x = true -> valid_binary prec emax y = true ->
  valid_binary prec emax (SFsub prec emax x y) = true.
Proof.
  intros Hx Hy. rewrite SFsub_as_add.
  apply SFadd_valid; [ assumption | apply SFopp_valid; assumption ].
Qed.

Lemma SFmul_valid x y :
  valid_binary prec emax x = true -> valid_binary prec emax y = true ->
  valid_binary prec emax (SFmul prec emax x y) = true.
Proof.
  intros Hx Hy.
  destruct x as [sx | sx | | sx mx ex], y as [sy | sy | | sy my ey];
    try reflexivity.
  cbn [SFmul valid_binary] in *.
  apply binary_round_aux_valid; [ lia | ].
  unfold SpecFloat.bounded, canonical_mantissa in Hx, Hy.
  apply andb_true_iff in Hx, Hy. destruct Hx as [Hx _], Hy as [Hy _].
  apply Z.eqb_eq in Hx, Hy.
  change (Zpos (digits2_pos mx)) with (Zdigits2 (Zpos mx)) in Hx.
  change (Zpos (digits2_pos my)) with (Zdigits2 (Zpos my)) in Hy.
  assert (Hd : Zdigits2 (Zpos mx) + Zdigits2 (Zpos my) - 1 <= Zdigits2 (Zpos (mx * my))).
  { rewrite !Zdigits2_log2. rewrite Pos2Z.inj_mul.
    pose proof (Z.log2_mul_below (Zpos mx) (Zpos my) ltac:(lia) ltac:(lia)). lia. }
  pose proof (Zdigits2_pos mx). pose proof (Zdigits2_pos my).
  unfold fexp, emin, prec, emax in *. lia.
Qed.

(** *** The comparison against 1 and the real interval *)

Lemma canonical_digits m e :
  SpecFloat.bounded prec emax m e = true ->
  Zdigits2 (Zpos m) <= 24 /\ (-149 < e -> Zdigits2 (Zpos m) = 24).
Proof.
  intros Hb. unfold SpecFloat.bounded, canonical_mantissa in Hb.
  apply andb_true_iff in Hb. destruct Hb as [Hc _]. apply Z.eqb_eq in Hc.
  change (Zpos (digits2_pos m)) with (Zdigits2 (Zpos m)) in Hc.
  unfold fexp, emin, prec, emax in Hc. lia.
Qed.

Lemma Zdigits2_bounds p : 2 ^ (Zdigits2 (Zpos p) - 1) <= Zpos p < 2 ^ Zdigits2 (Zpos p).
Proof.
  rewrite Zdigits2_log2.
  pose proof (Z.log2_spec (Zpos p) ltac:(lia)) as H.
  replace (Z.log2 (Zpos p) + 1 - 1) with (Z.log2 (Zpos p)) by lia.
  replace (Z.log2 (Zpos p) + 1) with (Z.succ (Z.log2 (Zpos p))) by lia.
  exact H.
Qed.

(** The magnitude of a positive float against 1, as the comparison sees it
    and as a real number. *)
Lemma SFleb_one_spec m e :
  SpecFloat.bounded prec emax m e = true ->
  SFleb (S754_finite false m e) (flit 1.0) = true
  <-> (F32.to_R (S754_finite false m e) <= 1)%R.
Proof.
  intros Hb. rewrite flit_1.
  destruct (canonical_digits m e Hb) as [Hd Hn].
  pose proof (Zdigits2_bounds m) as Hm.
  unfold SFleb, SFcompare, F32.to_R.
  destruct (Z.compare_spec e (-23)) as [He | He | He].
  - subst e. clear Hb Hd Hn Hm.
    change (0 <=? -23) with false. change (- -23) with 23.
    change (2 ^ 23) with 8388608.
    destruct (Pos.compare_cont Eq m 8388608) eqn:Hc.
    + apply (proj1 (Pos.compare_eq_iff m 8388608)) in Hc. subst m.
      split; [ intros _; lra | reflexivity ].
    + apply (proj1 (Pos.compare_lt_iff m 8388608)) in Hc.
      apply Pos2Z.pos_lt_pos in Hc. apply IZR_lt in Hc.
      split; [ intros _; lra | reflexivity ].
    + apply (proj1 (Pos.compare_gt_iff m 8388608)) in Hc.
      apply Pos2Z.pos_lt_pos in Hc. apply IZR_lt in Hc.
      split; [ discriminate | intros H; lra ].
  - destruct (0 <=? e) eqn:E0; [ apply Z.leb_le in E0; lia | ].
    split; [ intros _ | reflexivity ].
    assert (Hp : Zpos m <= 2 ^ (- e)).
    { apply Z.le_trans with (2 ^ 24); [ | apply Z.pow_le_mono_r; lia ].
      assert (2 ^ Zdigits2 (Zpos m) <= 2 ^ 24) by (apply Z.pow_le_mono_r; lia).
      lia. }
    assert (H0 : 0 < 2 ^ (- e)) by (apply Z.pow_pos_nonneg; lia).
    apply IZR_le in Hp. apply IZR_lt in H0.
    apply Rmult_le_reg_r with (IZR (2 ^ (- e))); [ exact H0 | ].
    unfold Rdiv. rewrite Rmult_assoc, Rinv_l by lra. lra.
  - specialize (Hn ltac:(lia)). rewrite Hn in Hm.
    change (2 ^ (24 - 1)) with 8388608 in Hm.
    split; [ discriminate | intros H; exfalso ].
    destruct (0 <=? e) eqn:E0.
    + apply Z.leb_le in E0.
      assert (0 < 2 ^ e) by (apply Z.pow_pos_nonneg; lia).
      apply le_IZR in H. nia.
    + apply Z.leb_gt in E0.
      assert (Hp : 2 ^ (- e) < Zpos m).
      { apply Z.le_lt_trans with (2 ^ 22); [ apply Z.pow_le_mono_r; lia | ].
        change (2 ^ 22) with 4194304. lia. }
      assert (H0 : 0 < 2 ^ (- e)) by (apply Z.pow_pos_nonneg; lia).
      apply IZR_lt in Hp. apply IZR_lt in H0.
      apply (Rmult_le_compat_r (IZR (2 ^ (- e)))) in H; [ | lra ].
      unfold Rdiv in H. rewrite Rmult_assoc, Rinv_l in H by lra. lra.
Qed.

Lemma to_R_finite_sign (s : bool) (m : positive) (e : Z) :
  (if s then F32.to_R (S754_finite s m e) < 0 else 0 < F32.to_R (S754_finite s m e))%R.
Proof.
  assert (Hv : (0 < if (0 <=? e)%Z then IZR (Zpos m * 2 ^ e) else IZR (Zpos m) / IZR (2 ^ (- e)))%R).
  { destruct (0 <=? e) eqn:E0.
    - apply Z.leb_le in E0. apply IZR_lt.
      assert (0 < 2 ^ e) by (apply Z.pow_pos_nonneg; lia). nia.
    - apply Z.leb_gt in E0.
      assert (H0 : 0 < 2 ^ (- e)) by (apply Z.pow_pos_nonneg; lia).
      apply IZR_lt in H0.
      apply Rdiv_lt_0_compat; [ apply IZR_lt; lia | exact H0 ]. }
  unfold F32.to_R. destruct s; lra.
Qed.

(** Over valid floats the two comparisons of the validity check decide
    membership in the real interval [0, 1]. *)
Lemma in_unit_binary32_spec (t : spec_float) :
  valid_binary prec emax t = true ->
  (fleb (flit 0.0) t = true /\ fleb t (flit 1.0) = true)
  <-> (F32.is_finite t = true /\ (0 <= F32.to_R t <= 1)%R).
Proof.
  intros Hv. cbn [fleb binary32]. rewrite flit_0.
  destruct t as [s | s | | s m e].
  - cbn. split; intros _; repeat split; try reflexivity; lra.
  - split; [ intros [H1 H2] | intros [H _]; discriminate H ].
    destruct s; discriminate.
  - split; [ intros [H _] | intros [H _] ]; discriminate H.
  - cbn [valid_binary] in Hv. cbn [F32.is_finite].
    pose proof (to_R_finite_sign s m e) as Hs.
    destruct s.
    + split; [ intros [H _]; discriminate H | intros [_ H]; lra ].
    + rewrite (SFleb_one_spec m e Hv).
      split; [ intros [_ H] | intros [_ H] ]; repeat split; try reflexivity; lra.
Qed.

End Binary32Facts.


(** ** The modulator: structure of the result *)

Section SVM_structure.

Context {F : Type} {FA : FloatArith F}.
Variables one_by_sqrt3 two_by_sqrt3 : F.

(** The classification always yields one of the six sextants. *)
Lemma Sextant_range (alpha beta : F) :
  In (Sextant one_by_sqrt3 alpha beta) [1; 2; 3; 4; 5; 6].
Proof.
  unfold Sextant.
  repeat match goal with
         | |- context [if ?b then _ else _] => destruct b
         end; simpl; tauto.
Qed.

(** So the switch always assigns the three timings. *)
Lemma duty_cycles_defined (alpha beta : F) :
  exists tA tB tC,
    duty_cycles one_by_sqrt3 two_by_sqrt3 (Sextant one_by_sqrt3 alpha beta) alpha beta
    = Some (tA, tB, tC).
Proof.
  pose proof (Sextant_range alpha beta) as H.
  simpl in H.
  destruct H as [H | [H | [H | [H | [H | [H | []]]]]]];
    rewrite <- H; simpl; eauto.
Qed.

Lemma result_valid_iff (tA tB tC : F) :
  result_valid tA tB tC = true <->
  in_unit tA = true /\ in_unit tB = true /\ in_unit tC = true.
Proof.
  unfold result_valid, in_unit.
  rewrite !andb_true_iff. tauto.
Qed.

End SVM_structure.

Section SVM_binary32_validity.

Import Binary32 Binary32Facts.

Lemma some_quad_inv {A B : Type} (a b c a' b' c' : A) (v v' : B) :
  Some (a, b, c, v) = Some (a', b', c', v') -> a = a' /\ b = b' /\ c = c'.
Proof. intros H. injection H as -> -> -> _. auto. Qed.

(** The timings computed from valid floats are valid floats. *)
Lemma SVM_outputs_valid (c c2 alpha beta tA tB tC : spec_float) (v : bool) :
  valid_binary prec emax c = true -> valid_binary prec emax c2 = true ->
  valid_binary prec emax alpha = true -> valid_binary prec emax beta = true ->
  SVM c c2 alpha beta = Some (tA, tB, tC, v) ->
  valid_binary prec emax tA = true
  /\ valid_binary prec emax tB = true
  /\ valid_binary prec emax tC = true.
Proof.
  intros Hc Hc2 Ha Hb E. unfold SVM in E.
  pose proof (Sextant_range c alpha beta) as Hs. simpl in Hs.
  destruct Hs as [Hs | [Hs | [Hs | [Hs | [Hs | [Hs | []]]]]]];
    rewrite <- Hs in E; unfold duty_cycles in E;
    destruct (some_quad_inv _ _ _ _ _ _ _ _ E) as (<- & <- & <-);
    unfold fadd, fsub, fmul, fneg, binary32;
    (split; [ | split ]);
    repeat first
      [ assumption
      | apply SFadd_valid
      | apply SFsub_valid
      | apply SFmul_valid
      | apply SFopp_valid
      | reflexivity ].
Qed.

(** Over binary32 the flag is true exactly when the three timings are
    finite numbers whose values lie in the real interval [0, 1]. *)
Lemma SVM_valid_iff_real_unit_range (c c2 alpha beta : spec_float) :
  valid_binary prec emax c = true -> valid_binary prec emax c2 = true ->
  valid_binary prec emax alpha = true -> valid_binary prec emax beta = true ->
  exists tA tB tC v,
    SVM c c2 alpha beta = Some (tA, tB, tC, v)
    /\ (v = true <->
        (F32.is_finite tA = true /\ (0 <= F32.to_R tA <= 1)%R)
        /\ (F32.is_finite tB = true /\ (0 <= F32.to_R tB <= 1)%R)
        /\ (F32.is_finite tC = true /\ (0 <= F32.to_R tC <= 1)%R)).
Proof.
  intros Hc Hc2 Ha Hb.
  destruct (duty_cycles_defined c c2 alpha beta) as (tA & tB & tC & E).
  assert (ES : SVM c c2 alpha beta = Some (tA, tB, tC, result_valid tA tB tC))
    by (unfold SVM; rewrite E; reflexivity).
  destruct (SVM_outputs_valid _ _ _ _ _ _ _ _ Hc Hc2 Ha Hb ES) as (HA & HB & HC).
  exists tA, tB, tC, (result_valid tA tB tC). split; [ exact ES | ].
  rewrite <- (in_unit_binary32_spec tA HA), <- (in_unit_binary32_spec tB HB),
    <- (in_unit_binary32_spec tC HC).
  rewrite result_valid_iff. unfold in_unit. rewrite !andb_true_iff. tauto.
Qed.

End SVM_binary32_validity.

(** C3: for every input pair the validity flag is true if and only if the
    three returned duty cycles all lie in [0, 1], and the returned triple
    is the one the formulas of the selected sextant produce, unchanged:
    nothing is clamped or saturated when the flag is false, the error is
    carried by the boolean alone.  This holds whatever the reading of
    [float], membership in [0, 1] being the two comparisons of the code;
    over binary32 these comparisons say that the timing is a finite number
    whose value lies in the real interval [0, 1].  An overmodulated input
    ([alpha = 2], [beta = 0]) comes back as [(-0.5, 1.5, 1.5)] with the
    flag false. *)
Theorem SVM_valid_iff_unit_range :
  (forall (F : Type) (FA : FloatArith F) (one_by_sqrt3 two_by_sqrt3 alpha beta : F),
      exists tA tB tC valid,
        SVM one_by_sqrt3 two_by_sqrt3 alpha beta = Some (tA, tB, tC, valid)
        /\ duty_cycles one_by_sqrt3 two_by_sqrt3 (Sextant one_by_sqrt3 alpha beta) alpha beta
           = Some (tA, tB, tC)
        /\ (valid = true <->
            (fleb (flit 0.0) tA = true /\ fleb tA (flit 1.0) = true)
            /\ (fleb (flit 0.0) tB = true /\ fleb tB (flit 1.0) = true)
            /\ (fleb (flit 0.0) tC = true /\ fleb tC (flit 1.0) = true)))
  /\ (forall one_by_sqrt3 two_by_sqrt3 alpha beta : spec_float,
         valid_binary Binary32.prec Binary32.emax one_by_sqrt3 = true ->
         valid_binary Binary32.prec Binary32.emax two_by_sqrt3 = true ->
         valid_binary Binary32.prec Binary32.emax alpha = true ->
         valid_binary Binary32.prec Binary32.emax beta = true ->
         exists tA tB tC valid,
           SVM one_by_sqrt3 two_by_sqrt3 alpha beta = Some (tA, tB, tC, valid)
           /\ (valid = true <->
               (F32.is_finite tA = true /\ (0 <= F32.to_R tA <= 1)%R)
               /\ (F32.is_finite tB = true /\ (0 <= F32.to_R tB <= 1)%R)
               /\ (F32.is_finite tC = true /\ (0 <= F32.to_R tC <= 1)%R)))
  /\ F32.SVM (flit 2.0) (flit 0.0)
     = Some (fneg (flit 0.5), flit 1.5, flit 1.5, false).
Proof.
  split; [ | split ].
  - intros F FA c c2 alpha beta.
    destruct (duty_cycles_defined c c2 alpha beta) as (tA & tB & tC & E).
    exists tA, tB, tC, (result_valid tA tB tC).
    unfold SVM. rewrite E. split; [reflexivity | split; [reflexivity | ]].
    rewrite result_valid_iff. unfold in_unit.
    rewrite !andb_true_iff. tauto.
  - exact SVM_valid_iff_real_unit_range.
  - vm_compute. reflexivity.
Qed.

(** ** The modulator on boundary rays and on NaN *)

Section SVM_binary32.

Import Binary32 Binary32Facts.

Variables one_by_sqrt3 two_by_sqrt3 : spec_float.

Local Open Scope flt_scope.

(** Inside each quadrant the classification chooses between two
    neighbouring sextants, and a tie of the comparison made there (its two
    operands equal) takes the else branch. *)
Lemma Sextant_ties_binary32 (alpha beta : spec_float) :
  ((beta >=? flit 0.0) = true -> (alpha >=? flit 0.0) = true ->
   (Sextant one_by_sqrt3 alpha beta = 1%Z \/ Sextant one_by_sqrt3 alpha beta = 2%Z)
   /\ (SFeqb alpha (one_by_sqrt3 * beta) = true ->
       Sextant one_by_sqrt3 alpha beta = 1%Z))
  /\ ((beta >=? flit 0.0) = true -> (alpha >=? flit 0.0) = false ->
      (Sextant one_by_sqrt3 alpha beta = 2%Z \/ Sextant one_by_sqrt3 alpha beta = 3%Z)
      /\ (SFeqb alpha (- one_by_sqrt3 * beta) = true ->
          Sextant one_by_sqrt3 alpha beta = 2%Z))
  /\ ((beta >=? flit 0.0) = false -> (alpha >=? flit 0.0) = true ->
      (Sextant one_by_sqrt3 alpha beta = 5%Z \/ Sextant one_by_sqrt3 alpha beta = 6%Z)
      /\ (SFeqb alpha (- one_by_sqrt3 * beta) = true ->
          Sextant one_by_sqrt3 alpha beta = 6%Z))
  /\ ((beta >=? flit 0.0) = false -> (alpha >=? flit 0.0) = false ->
      (Sextant one_by_sqrt3 alpha beta = 4%Z \/ Sextant one_by_sqrt3 alpha beta = 5%Z)
      /\ (SFeqb alpha (one_by_sqrt3 * beta) = true ->
          Sextant one_by_sqrt3 alpha beta = 5%Z)).
Proof.
  unfold Sextant.
  split; [ | split; [ | split ] ]; intros Hb Ha; rewrite Hb, Ha;
    cbn [fltb fmul fneg binary32];
    (split;
     [ match goal with
       | |- context [SFltb ?x ?y] => destruct (SFltb x y); auto
       end
     | intros Heq; rewrite (SFeqb_not_ltb _ _ Heq); reflexivity ]).
Qed.

(** C10: if either input is NaN, every comparison made on the way takes
    its else branch, a sextant is selected all the same, the three duty
    cycles are computed and are NaN, and the validity flag is false. *)
Theorem SVM_nan_is_invalid (alpha beta : spec_float) :
  alpha = S754_nan \/ beta = S754_nan ->
  Sextant one_by_sqrt3 alpha beta
  = (if beta >=? flit 0.0
     then (if alpha >=? flit 0.0 then 1%Z else 2%Z)
     else (if alpha >=? flit 0.0 then 6%Z else 5%Z))
  /\ SVM one_by_sqrt3 two_by_sqrt3 alpha beta
     = Some (S754_nan, S754_nan, S754_nan, false).
Proof.
  intros [-> | ->];
    unfold SVM, Sextant; cbn [fleb fltb fmul fadd fsub fneg binary32];
    rewrite flit_0;
    repeat (rewrite SFleb_nan_r || rewrite SFltb_nan_l || rewrite SFltb_nan_r
            || rewrite SFmul_nan_r);
    match goal with
    | |- context [SFleb (S754_zero false) ?x] => destruct (SFleb (S754_zero false) x)
    end;
    cbn [duty_cycles fleb fltb fmul fadd fsub fneg binary32 SFopp];
    repeat (rewrite SFadd_nan_l || rewrite SFadd_nan_r
            || rewrite SFsub_nan_l || rewrite SFsub_nan_r
            || rewrite SFmul_nan_l || rewrite SFmul_nan_r
            || rewrite SFleb_nan_l || rewrite SFleb_nan_r);
    split; reflexivity.
Qed.

End SVM_binary32.

Lemma SVM_nan_is_invalid_witness :
  F32.SVM S754_nan (flit 0.2) = Some (S754_nan, S754_nan, S754_nan, false).
Proof.
  apply (SVM_nan_is_invalid F32.one_by_sqrt3 F32.two_by_sqrt3 S754_nan (flit 0.2)).
  left. reflexivity.
Defined.

(** ** The arctangent at the origin *)

(** C8: [fast_atan2(0, 0)] is exactly [0].  The quotient formed first is
    [0 / (0 + FLT_MIN) = 0], a defined value, where the unguarded quotient
    [0 / 0] is NaN; the result is the finite number [+0], for either sign
    of each zero argument, and it is [0] in exact arithmetic too. *)
Theorem fast_atan2_origin :
  F32.fast_atan2 (flit 0.0) (flit 0.0) = flit 0.0
  /\ (forall sy sx : bool,
         F32.fast_atan2 (S754_zero sy) (S754_zero sx) = S754_zero false)
  /\ fdiv (std_min (fabs (flit 0.0)) (fabs (flit 0.0)))
          (fadd (std_max (fabs (flit 0.0)) (fabs (flit 0.0))) numeric_limits_min)
     = S754_zero false
  /\ fdiv (std_min (fabs (flit 0.0)) (fabs (flit 0.0)))
          (std_max (fabs (flit 0.0)) (fabs (flit 0.0)))
     = S754_nan
  /\ Ideal.fast_atan2 0%R 0%R = 0%R.
Proof.
  split; [ vm_compute; reflexivity | ].
  split; [ intros [ | ] [ | ]; vm_compute; reflexivity | ].
  split; [ vm_compute; reflexivity | ].
  split; [ vm_compute; reflexivity | ].
  unfold Ideal.fast_atan2, fast_atan2, std_min, std_max.
  cbn [fabs fltb fadd fsub fmul fdiv fneg flit numeric_limits_min Exact.exact].
  rewrite Rabs_R0.
  unfold Exact.Rltb.
  destruct (Rlt_dec 0 0) as [H | _]; [ exfalso; lra | ].
  destruct (Rlt_dec 0 (Exact.of_literal 0.0)) as [H | _].
  - exfalso. unfold Exact.of_literal in H. simpl in H. lra.
  - unfold Rdiv. ring.
Qed.

(** ** The deadline helper *)

Module TimingFacts.

Import Timing.

Lemma uint32_t_range z : 0 <= uint32_t z < 2 ^ 32.
Proof. unfold uint32_t. apply Z.mod_pos_bound. lia. Qed.

(** Masking with [0x80000000] isolates bit 31. *)
Lemma land_high_bit d :
  0 <= d < 2 ^ 32 ->
  Z.land d 0x80000000 = if 2 ^ 31 <=? d then 0x80000000 else 0.
Proof.
  intros Hd.
  change 0x80000000 with (2 ^ 31).
  destruct (2 ^ 31 <=? d) eqn:E.
  - apply Z.leb_le in E.
    replace d with ((d - 2 ^ 31) + 1 * 2 ^ 31) by lia.
    apply Z.bits_inj'. intros n Hn.
    rewrite Z.land_spec, Z.pow2_bits_eqb by lia.
    destruct (Z.eqb_spec 31 n) as [<- | Hne].
    + rewrite andb_true_r.
      rewrite Z.testbit_true by lia.
      rewrite Z.div_add by lia.
      rewrite Z.div_small by lia. reflexivity.
    + apply andb_false_r.
  - apply Z.leb_gt in E.
    apply Z.bits_inj'. intros n Hn.
    rewrite Z.land_spec, Z.pow2_bits_eqb, Z.bits_0 by lia.
    destruct (Z.eqb_spec 31 n) as [<- | Hne].
    + rewrite andb_true_r.
      apply Z.testbit_false; [lia | ].
      rewrite Z.div_small by lia. reflexivity.
    + apply andb_false_r.
Qed.

Lemma high_bit_testbit d :
  0 <= d < 2 ^ 32 -> Z.testbit d 31 = (2 ^ 31 <=? d).
Proof.
  intros Hd.
  destruct (2 ^ 31 <=? d) eqn:E.
  - apply Z.leb_le in E. rewrite Z.testbit_true by lia.
    replace d with ((d - 2 ^ 31) + 1 * 2 ^ 31) by lia.
    rewrite Z.div_add by lia. rewrite Z.div_small by lia. reflexivity.
  - apply Z.leb_gt in E. apply Z.testbit_false; [lia | ].
    rewrite Z.div_small by lia. reflexivity.
Qed.

End TimingFacts.

(** C9: with the tick counter fixed, so that the current time is
    [now = now_ms tick], [deadline_to_timeout] forms the difference
    [deadline - now] modulo [2^32] and returns [0] when bit 31 of the
    difference is set (equivalently, when the difference is at least
    [2^31]) and the difference otherwise.  In particular
    [deadline_to_timeout(now)] is [0] and [deadline_to_timeout(now + 100)]
    is [100], the sum being taken in [uint32_t]. *)
Theorem deadline_to_timeout_high_bit (osKernelSysTickFrequency tick deadline_ms : Z) :
  let now := Timing.now_ms osKernelSysTickFrequency tick in
  let diff := (deadline_ms - now) mod 2 ^ 32 in
  Timing.deadline_to_timeout osKernelSysTickFrequency tick deadline_ms
  = (if Z.testbit diff 31 then 0 else diff)
  /\ Timing.deadline_to_timeout osKernelSysTickFrequency tick deadline_ms
     = (if 2 ^ 31 <=? diff then 0 else diff)
  /\ Timing.deadline_to_timeout osKernelSysTickFrequency tick now = 0
  /\ Timing.deadline_to_timeout osKernelSysTickFrequency tick (Timing.uint32_t (now + 100)) = 100.
Proof.
  intros now diff.
  assert (Hgen : forall d,
             Timing.deadline_to_timeout osKernelSysTickFrequency tick d
             = if 2 ^ 31 <=? (d - now) mod 2 ^ 32 then 0 else (d - now) mod 2 ^ 32).
  { intros d. unfold Timing.deadline_to_timeout. fold now.
    cbv zeta. unfold Timing.uint32_t.
    pose proof (Z.mod_pos_bound (d - now) (2 ^ 32) ltac:(lia)) as Hr.
    rewrite (TimingFacts.land_high_bit _ Hr).
    destruct (2 ^ 31 <=? (d - now) mod 2 ^ 32); reflexivity. }
  assert (Hd : 0 <= diff < 2 ^ 32) by (apply Z.mod_pos_bound; lia).
  repeat split.
  - rewrite (TimingFacts.high_bit_testbit _ Hd). apply Hgen.
  - apply Hgen.
  - rewrite Hgen. rewrite Z.sub_diag. reflexivity.
  - rewrite Hgen. unfold Timing.uint32_t.
    replace ((now + 100) mod 2 ^ 32 - now) with (100 + (- ((now + 100) / 2 ^ 32)) * 2 ^ 32).
    + rewrite Z.mod_add by lia. reflexivity.
    + pose proof (Z.div_mod (now + 100) (2 ^ 32) ltac:(lia)). lia.
Qed.

(** ** The table *)

(** C4, as the source has it: the initialiser of [pdf_table] lists 512
    samples (not 441), followed by the origin offset [0.0] and the domain
    span [4.0]. *)
Theorem pdf_table_shape (F : Type) (FA : FloatArith F) :
  length (lut_samples (pdf_table (F := F))) = 512%nat
  /\ lut_origin (pdf_table (F := F)) = flit 0.0
  /\ lut_span (pdf_table (F := F)) = flit 4.0.
Proof.
  unfold pdf_table. cbn [lut_samples lut_origin lut_span].
  rewrite length_map.
  split; [ vm_compute; reflexivity | split; reflexivity ].
Qed.

(** The table does not have 441 entries. *)
Lemma pdf_table_not_441 :
  ~ (length (lut_samples (pdf_table (F := spec_float))) = 441%nat
     /\ lut_origin (pdf_table (F := spec_float)) = flit 0.0
     /\ lut_span (pdf_table (F := spec_float)) = flit 4.0).
Proof.
  intros [H _].
  unfold pdf_table in H. cbn [lut_samples] in H.
  rewrite length_map in H.
  vm_compute in H. discriminate H.
Qed.

(** ** Facts about the exact reading *)

Module ExactFacts.

Import Exact.

Local Open Scope R_scope.

Lemma lit_0 : flit 0.0 = 0.
Proof. cbn. unfold of_literal. simpl. lra. Qed.

Lemma lit_1 : flit 1.0 = 1.
Proof. cbn. unfold of_literal. simpl. lra. Qed.

Lemma lit_half : flit 0.5 = / 2.
Proof. cbn. unfold of_literal. simpl. lra. Qed.

Lemma Rleb_true x y : Rleb x y = true <-> x <= y.
Proof. unfold Rleb. destruct (Rle_dec x y); split; intros; try lra; congruence. Qed.

Lemma Rleb_false x y : Rleb x y = false <-> y < x.
Proof. unfold Rleb. destruct (Rle_dec x y); split; intros; try lra; congruence. Qed.

Lemma Rltb_true x y : Rltb x y = true <-> x < y.
Proof. unfold Rltb. destruct (Rlt_dec x y); split; intros; try lra; congruence. Qed.

Lemma Rltb_false x y : Rltb x y = false <-> y <= x.
Proof. unfold Rltb. destruct (Rlt_dec x y); split; intros; try lra; congruence. Qed.












(** Machin's series bounds pi to eight decimals. *)
Lemma PI_bounds : 3.14159265 < PI < 3.14159266.
Proof.
  pose proof (PI_2_3_7_ineq 4) as [Hl Hu].
  unfold sum_f_R0, tg_alt, PI_2_3_7_tg, Ratan_seq in Hl, Hu.
  simpl in Hl, Hu.
  split; lra.
Qed.




End ExactFacts.

(** Unfold the operations of the interface at the exact instance. *)
Ltac exact_ops :=
  cbn [fabs fltb fleb fadd fsub fmul fdiv fneg numeric_limits_min Exact.exact] in *.

Ltac exact_lits :=
  rewrite ?ExactFacts.lit_0, ?ExactFacts.lit_1, ?ExactFacts.lit_half in *.

(** Split on every comparison of the goal, turning it into an inequality. *)
Ltac exact_cases :=
  repeat match goal with
         | |- context [Exact.Rleb ?x ?y] =>
             let E := fresh "E" in
             destruct (Exact.Rleb x y) eqn:E;
             [apply ExactFacts.Rleb_true in E | apply ExactFacts.Rleb_false in E]
         | |- context [Exact.Rltb ?x ?y] =>
             let E := fresh "E" in
             destruct (Exact.Rltb x y) eqn:E;
             [apply ExactFacts.Rltb_true in E | apply ExactFacts.Rltb_false in E]
         end.


(** ** The modulator in exact arithmetic *)

Section SVM_exact.

Import Exact ExactFacts.

Local Open Scope R_scope.

(** The two constants of [utils.hpp] are parameters: a positive [c] not
    above 1/sqrt(3), and its double.  Both 1/sqrt(3) itself and the value
    of the binary32 constant [0x3F13CD3A] qualify. *)
Variables c c2 : R.
Hypothesis c_pos : 0 < c.
Hypothesis c_le : 3 * (c * c) <= 1.
Hypothesis c2_double : c2 = 2 * c.











End SVM_exact.



(** ** The modulator along the alpha axis *)

Section SVM_axis.

Import Exact ExactFacts.

Local Open Scope R_scope.



End SVM_axis.

Section SVM_axis_binary32.

Import Binary32 Binary32Facts.


End SVM_axis_binary32.




(** ** The arctangent: formula and range *)

Section Atan2_exact.

Import Exact ExactFacts.

Local Open Scope R_scope.






End Atan2_exact.



(** ** Ties of the sextant classification *)

Section Sextant_exact.

Import Exact ExactFacts.

Local Open Scope R_scope.

(** The four ties in exact arithmetic. *)
Lemma Sextant_ties_exact (c alpha beta : R) :
  (0 <= beta -> 0 <= alpha -> alpha = c * beta -> Sextant c alpha beta = 1%Z)
  /\ (0 <= beta -> alpha < 0 -> alpha = - c * beta -> Sextant c alpha beta = 2%Z)
  /\ (beta < 0 -> 0 <= alpha -> alpha = - c * beta -> Sextant c alpha beta = 6%Z)
  /\ (beta < 0 -> alpha < 0 -> alpha = c * beta -> Sextant c alpha beta = 5%Z).
Proof.
  unfold Sextant. exact_ops. exact_lits.
  split; [ | split; [ | split ] ]; intros Hb Ha Heq;
    exact_cases; try reflexivity; exfalso; lra.
Qed.

End Sextant_exact.

(** With the constants of the firmware, a point on the alpha axis (a zero
    [beta] of either sign) passes the test [beta >= 0]: it is in sextant 1
    when [alpha >= 0] and in sextant 3 when [alpha < 0]. *)
Lemma Sextant_alpha_axis (alpha : spec_float) (s : bool) :
  (fleb (flit 0.0) alpha = true -> F32.Sextant alpha (S754_zero s) = 1%Z)
  /\ (fltb alpha (flit 0.0) = true -> F32.Sextant alpha (S754_zero s) = 3%Z).
Proof.
  unfold F32.Sextant, Sextant.
  cbn [fleb fltb fmul fneg Binary32.binary32].
  rewrite Binary32Facts.flit_0.
  replace (SFleb (S754_zero false) (S754_zero s)) with true by (destruct s; reflexivity).
  split; intros H.
  - rewrite H.
    replace (SFmul Binary32.prec Binary32.emax F32.one_by_sqrt3 (S754_zero s))
      with (S754_zero s) by (destruct s; reflexivity).
    rewrite (Binary32Facts.SFleb_zero_not_ltb _ s _ H). reflexivity.
  - replace (SFmul Binary32.prec Binary32.emax (SFopp F32.one_by_sqrt3) (S754_zero s))
      with (S754_zero (negb s)) by (destruct s; reflexivity).
    destruct (Binary32Facts.SFltb_zero_any false false alpha H) as [_ H0].
    destruct (Binary32Facts.SFltb_zero_any false (negb s) alpha H) as [H1 _].
    rewrite H0, H1. reflexivity.
Qed.

(** C6: a point that lies exactly on the ray tested inside its quadrant
    (the two operands of the comparison are equal) is sent to the sextant
    of the else branch.  Of the two neighbouring sextants between which
    the comparison chooses, that is the lower-numbered one in quadrants I
    and II (1 of 1 and 2; 2 of 2 and 3) and the higher-numbered one in
    quadrants IV and III (6 of 5 and 6; 5 of 4 and 5).  In particular a
    point with [alpha = one_by_sqrt3 * beta], [alpha >= 0], [beta >= 0]
    is in sextant 1, not 2.  This holds over binary32 for any value of
    the constant, and in exact arithmetic.  (The two rays on the alpha
    axis are not ties of these comparisons: see [Sextant_alpha_axis].) *)
Theorem Sextant_ties_take_else_branch :
  (forall one_by_sqrt3 alpha beta : spec_float,
      (fleb (flit 0.0) beta = true -> fleb (flit 0.0) alpha = true ->
       (Sextant one_by_sqrt3 alpha beta = 1%Z \/ Sextant one_by_sqrt3 alpha beta = 2%Z)
       /\ (SFeqb alpha (fmul one_by_sqrt3 beta) = true ->
           Sextant one_by_sqrt3 alpha beta = 1%Z))
      /\ (fleb (flit 0.0) beta = true -> fleb (flit 0.0) alpha = false ->
          (Sextant one_by_sqrt3 alpha beta = 2%Z \/ Sextant one_by_sqrt3 alpha beta = 3%Z)
          /\ (SFeqb alpha (fmul (fneg one_by_sqrt3) beta) = true ->
              Sextant one_by_sqrt3 alpha beta = 2%Z))
      /\ (fleb (flit 0.0) beta = false -> fleb (flit 0.0) alpha = true ->
          (Sextant one_by_sqrt3 alpha beta = 5%Z \/ Sextant one_by_sqrt3 alpha beta = 6%Z)
          /\ (SFeqb alpha (fmul (fneg one_by_sqrt3) beta) = true ->
              Sextant one_by_sqrt3 alpha beta = 6%Z))
      /\ (fleb (flit 0.0) beta = false -> fleb (flit 0.0) alpha = false ->
          (Sextant one_by_sqrt3 alpha beta = 4%Z \/ Sextant one_by_sqrt3 alpha beta = 5%Z)
          /\ (SFeqb alpha (fmul one_by_sqrt3 beta) = true ->
              Sextant one_by_sqrt3 alpha beta = 5%Z)))
  /\ (forall one_by_sqrt3 alpha beta : R,
         (0 <= beta -> 0 <= alpha -> alpha = one_by_sqrt3 * beta ->
          Sextant one_by_sqrt3 alpha beta = 1%Z)
         /\ (0 <= beta -> alpha < 0 -> alpha = - one_by_sqrt3 * beta ->
             Sextant one_by_sqrt3 alpha beta = 2%Z)
         /\ (beta < 0 -> 0 <= alpha -> alpha = - one_by_sqrt3 * beta ->
             Sextant one_by_sqrt3 alpha beta = 6%Z)
         /\ (beta < 0 -> alpha < 0 -> alpha = one_by_sqrt3 * beta ->
             Sextant one_by_sqrt3 alpha beta = 5%Z))%R.
Proof.
  split.
  - exact Sextant_ties_binary32.
  - exact Sextant_ties_exact.
Qed.

(** The four ties of C6 over binary32, at [beta = 1] and [beta = -1], with
    the constant of the firmware. *)
Lemma Sextant_ties_take_else_branch_witness :
  F32.Sextant F32.one_by_sqrt3 (flit 1.0) = 1%Z
  /\ F32.Sextant (fneg F32.one_by_sqrt3) (flit 1.0) = 2%Z
  /\ F32.Sextant F32.one_by_sqrt3 (fneg (flit 1.0)) = 6%Z
  /\ F32.Sextant (fneg F32.one_by_sqrt3) (fneg (flit 1.0)) = 5%Z.
Proof.
  pose proof (proj1 Sextant_ties_take_else_branch F32.one_by_sqrt3) as T.
  split; [ | split; [ | split ] ].
  - apply (proj1 (T F32.one_by_sqrt3 (flit 1.0))); vm_compute; reflexivity.
  - apply (proj1 (proj2 (T (fneg F32.one_by_sqrt3) (flit 1.0)))); vm_compute; reflexivity.
  - apply (proj1 (proj2 (proj2 (T F32.one_by_sqrt3 (fneg (flit 1.0))))));
      vm_compute; reflexivity.
  - apply (proj2 (proj2 (proj2 (T (fneg F32.one_by_sqrt3) (fneg (flit 1.0))))));
      vm_compute; reflexivity.
Defined.

(** ** Evaluations over binary32 *)

(** The end-to-end scenario of the design, [SVM(0.3, 0.2)]: sextant 1,
    timings about 0.2923, 0.4768 and 0.7077, valid. *)
Lemma SVM_scenario :
  F32.Sextant (flit 0.3) (flit 0.2) = 1%Z
  /\ F32.SVM (flit 0.3) (flit 0.2)
     = Some (Binary32.of_bits 0x3E95A3C1, Binary32.of_bits 0x3EF41E77,
             Binary32.of_bits 0x3F352E20, true).
Proof. split; vm_compute; reflexivity. Qed.

(** Inputs at the rim of the disc of radius sqrt(3)/2, where it touches
    the hexagon: [(0.75, b)] and [(0, 2b)] with [b] the largest float not
    above sqrt(3)/4.  Both are valid over binary32. *)
Lemma SVM_rim_valid :
  (exists tA tB tC,
      F32.SVM (flit 0.75) (Binary32.of_bits 0x3EDDB3D7) = Some (tA, tB, tC, true))
  /\ (exists tA tB tC,
         F32.SVM (flit 0.0) (Binary32.of_bits 0x3F5DB3D7) = Some (tA, tB, tC, true)).
Proof. split; vm_compute; do 3 eexists; reflexivity. Qed.

(** The formulas of the two sextants that meet on a boundary ray agree
    bit for bit at sample points of each of the six rays. *)
Lemma seams_agree_binary32 :
  let c := F32.one_by_sqrt3 in
  let c2 := F32.two_by_sqrt3 in
  let one := flit 1.0 in
  let zero := flit 0.0 in
  duty_cycles c c2 1 (fmul c one) one = duty_cycles c c2 2 (fmul c one) one
  /\ duty_cycles c c2 2 (fmul (fneg c) one) one = duty_cycles c c2 3 (fmul (fneg c) one) one
  /\ duty_cycles c c2 3 (fneg one) zero = duty_cycles c c2 4 (fneg one) zero
  /\ duty_cycles c c2 4 (fmul c (fneg one)) (fneg one)
     = duty_cycles c c2 5 (fmul c (fneg one)) (fneg one)
  /\ duty_cycles c c2 5 (fmul (fneg c) (fneg one)) (fneg one)
     = duty_cycles c c2 6 (fmul (fneg c) (fneg one)) (fneg one)
  /\ duty_cycles c c2 6 one zero = duty_cycles c c2 1 one zero.
Proof. vm_compute. repeat split. Qed.

(** A timeout below [2^31] survives the round trip through a deadline. *)
Lemma timeout_round_trip (osKernelSysTickFrequency tick timeout_ms : Z) :
  0 <= timeout_ms < 2 ^ 31 ->
  Timing.deadline_to_timeout osKernelSysTickFrequency tick
    (Timing.timeout_to_deadline osKernelSysTickFrequency tick timeout_ms)
  = timeout_ms.
Proof.
  intros Ht.
  unfold Timing.deadline_to_timeout, Timing.timeout_to_deadline. cbv zeta.
  set (now := Timing.now_ms osKernelSysTickFrequency tick).
  unfold Timing.uint32_t.
  replace (((now + timeout_ms) mod 2 ^ 32 - now) mod 2 ^ 32) with timeout_ms.
  - rewrite TimingFacts.land_high_bit by lia.
    destruct (2 ^ 31 <=? timeout_ms) eqn:E; [ apply Z.leb_le in E; lia | reflexivity ].
  - rewrite Zminus_mod_idemp_l.
    replace (now + timeout_ms - now) with timeout_ms by lia.
    symmetry. apply Z.mod_small. lia.
Qed.

(** The two constants of [utils.hpp] as bit patterns, and the constant
    the code uses for pi against pi itself. *)
Lemma constants_binary32 :
  Binary32.bits F32.one_by_sqrt3 = 0x3F13CD3A
  /\ Binary32.bits F32.two_by_sqrt3 = 0x3F93CD3A
  /\ Binary32.bits (flit 3.14159274) = 0x40490FDB
  /\ (PI < F32.to_R (flit 3.14159274))%R.
Proof.
  split; [ reflexivity | split; [ reflexivity | split; [ reflexivity | ] ] ].
  replace (F32.to_R (flit 3.14159274)) with (13176795 / 4194304)%R
    by (vm_compute; lra).
  pose proof ExactFacts.PI_bounds. lra.
Qed.

(** The second part of C3 at the overmodulated input [(2, 0)]. *)
Lemma SVM_valid_iff_unit_range_witness :
  exists tA tB tC valid,
    SVM F32.one_by_sqrt3 F32.two_by_sqrt3 (flit 2.0) (flit 0.0)
    = Some (tA, tB, tC, valid)
    /\ (valid = true
        <-> (F32.is_finite tA = true /\ (0 <= F32.to_R tA <= 1)%R)
            /\ (F32.is_finite tB = true /\ (0 <= F32.to_R tB <= 1)%R)
            /\ (F32.is_finite tC = true /\ (0 <= F32.to_R tC <= 1)%R)).
Proof.
  apply (proj1 (proj2 SVM_valid_iff_unit_range)); reflexivity.
Defined.

(** * Further properties of the code *)

(** ** The geometry of the modulator, in exact arithmetic *)



Section SVM_geometry.

Import Exact ExactFacts.

Local Open Scope R_scope.

(** [one_by_sqrt3] is a constant [c] that is not negative, and
    [two_by_sqrt3] is its double. *)
Variables c c2 : R.
Hypothesis c_nonneg : 0 <= c.
Hypothesis c2_double : c2 = 2 * c.











(** From here on [c] is exactly 1/sqrt(3). *)
Hypothesis c_exact : 3 * (c * c) = 1.


End SVM_geometry.











(** ** The modulator on infinite inputs *)

(** Split the goal on every float that occurs in it, and on the result
    of every operation on two finite floats, until it evaluates. *)
Ltac float_cases :=
  repeat first
    [ reflexivity
    | match goal with
      | p : spec_float |- ?G =>
          match G with
          | context [p] => destruct p as [ [ | ] | [ | ] | | [ | ] ? ? ]
          end
      end
    | progress cbv beta iota zeta delta [SFadd SFsub SFmul SFopp SFleb SFltb SFcompare]
    | match goal with
      | |- context [binary_normalize ?a ?b ?c ?d ?e] =>
          generalize (binary_normalize a b c d e); intro
      | |- context [binary_round_aux ?a ?b ?c ?d ?e ?f] =>
          generalize (binary_round_aux a b c d e f); intro
      end ].

Section SVM_nonfinite.

Import Binary32 Binary32Facts.

Lemma duty_cycles_infinite_alpha (c c2 : spec_float) (k : Z) (s : bool) (beta : spec_float) :
  In k [1; 2; 3; 4; 5; 6] ->
  exists tA tB tC,
    duty_cycles c c2 k (S754_infinity s) beta = Some (tA, tB, tC)
    /\ result_valid tA tB tC = false.
Proof.
  intros Hk. simpl in Hk.
  destruct Hk as [Hk | [Hk | [Hk | [Hk | [Hk | [Hk | []]]]]]]; subst k;
    cbn [duty_cycles fadd fsub fmul fneg fleb binary32];
    (eexists; eexists; eexists; split; [ reflexivity | ]);
    unfold result_valid; cbn [fleb binary32]; rewrite flit_0, flit_1, flit_half;
    generalize (SFmul prec emax c beta), (SFmul prec emax c2 beta),
      (SFmul prec emax (SFopp c) beta), (SFmul prec emax (SFopp c2) beta);
    intros p1 p2 p3 p4;
    destruct s; float_cases.
Qed.

Lemma duty_cycles_infinite_beta (c c2 : spec_float) (k : Z) (s : bool) (alpha : spec_float) :
  In k [1; 2; 3; 4; 5; 6] ->
  exists tA tB tC,
    duty_cycles c c2 k alpha (S754_infinity s) = Some (tA, tB, tC)
    /\ result_valid tA tB tC = false.
Proof.
  intros Hk. simpl in Hk.
  destruct Hk as [Hk | [Hk | [Hk | [Hk | [Hk | [Hk | []]]]]]]; subst k;
    cbn [duty_cycles fadd fsub fmul fneg fleb binary32];
    (eexists; eexists; eexists; split; [ reflexivity | ]);
    unfold result_valid; cbn [fleb binary32]; rewrite flit_0, flit_1, flit_half;
    destruct s; float_cases.
Qed.

Lemma duty_cycles_nan (c c2 : spec_float) (k : Z) (alpha beta : spec_float) :
  In k [1; 2; 3; 4; 5; 6] ->
  alpha = S754_nan \/ beta = S754_nan ->
  exists tA tB tC,
    duty_cycles c c2 k alpha beta = Some (tA, tB, tC)
    /\ result_valid tA tB tC = false.
Proof.
  intros Hk Hn. simpl in Hk.
  destruct Hk as [Hk | [Hk | [Hk | [Hk | [Hk | [Hk | []]]]]]]; subst k;
    cbn [duty_cycles fadd fsub fmul fneg fleb binary32];
    (eexists; eexists; eexists; split; [ reflexivity | ]);
    unfold result_valid; cbn [fleb binary32];
    destruct Hn as [-> | ->]; cbn [SFopp];
    repeat (rewrite SFadd_nan_l || rewrite SFadd_nan_r
            || rewrite SFsub_nan_l || rewrite SFsub_nan_r
            || rewrite SFmul_nan_l || rewrite SFmul_nan_r
            || rewrite SFleb_nan_l || rewrite SFleb_nan_r);
    reflexivity.
Qed.

(** X9: over binary32, for any value of the two constants, a result
    flagged valid comes from finite inputs only: if [alpha] or [beta] is
    an infinity (or NaN) the flag is false. *)
Theorem SVM_valid_only_if_finite (c c2 alpha beta tA tB tC : spec_float) :
  SVM c c2 alpha beta = Some (tA, tB, tC, true) ->
  F32.is_finite alpha = true /\ F32.is_finite beta = true.
Proof.
  intros E. unfold SVM in E.
  pose proof (Sextant_range c alpha beta) as Hk.
  assert (H : forall a b d,
             duty_cycles c c2 (Sextant c alpha beta) alpha beta = Some (a, b, d) ->
             result_valid a b d = false -> False).
  { intros a b d Ed Hv. rewrite Ed in E. congruence. }
  split.
  - destruct alpha as [ sa | sa | | sa ma ea ]; try reflexivity; exfalso.
    + destruct (duty_cycles_infinite_alpha c c2 _ sa beta Hk) as (a & b & d & Ed & Hv); eauto.
    + destruct (duty_cycles_nan c c2 _ S754_nan beta Hk (or_introl eq_refl))
        as (a & b & d & Ed & Hv); eauto.
  - destruct beta as [ sb | sb | | sb mb eb ]; try reflexivity; exfalso.
    + destruct (duty_cycles_infinite_beta c c2 _ sb alpha Hk) as (a & b & d & Ed & Hv); eauto.
    + destruct (duty_cycles_nan c c2 _ alpha S754_nan Hk (or_intror eq_refl))
        as (a & b & d & Ed & Hv); eauto.
Qed.

End SVM_nonfinite.

Lemma SVM_valid_only_if_finite_witness :
  F32.is_finite (flit 0.5) = true /\ F32.is_finite (flit 0.25) = true.
Proof.
  apply (SVM_valid_only_if_finite F32.one_by_sqrt3 F32.two_by_sqrt3
           (flit 0.5) (flit 0.25)
           (Binary32.of_bits 0x3e361962) (Binary32.of_bits 0x3f08930a)
           (Binary32.of_bits 0x3f5279a7)).
  vm_compute. reflexivity.
Defined.

(** ** The arctangent over binary32: symmetries, NaN and the axes *)

Module Atan2Facts.

Import Binary32 Binary32Facts.

Lemma SFabs_opp x : SFabs (SFopp x) = SFabs x.
Proof. destruct x; reflexivity. Qed.


Lemma SFopp_involutive x : SFopp (SFopp x) = x.
Proof.
  destruct x as [ s | s | | s m e ]; cbn; rewrite ?negb_involutive; reflexivity.
Qed.


Lemma SFltb_abs_zero x s : SFltb (SFabs x) (S754_zero s) = false.
Proof. destruct x as [ sx | sx | | sx m e ]; reflexivity. Qed.

(** A positive number is not negative, and its opposite is. *)
Lemma SFltb_opp_positive x :
  SFltb (S754_zero false) x = true ->
  SFltb x (S754_zero false) = false /\ SFltb (SFopp x) (S754_zero false) = true.
Proof.
  destruct x as [ s | [ | ] | | [ | ] m e ]; cbn; intros H; try discriminate; auto.
Qed.

(** Below a number there are only numbers of smaller magnitude, as far
    as non-negative numbers go. *)
Lemma SFltb_order_abs y x :
  SFleb (S754_zero false) y = true -> SFltb y x = true ->
  SFltb (SFabs y) (SFabs x) = true
  /\ SFltb (SFabs x) (SFabs y) = false
  /\ SFltb x (S754_zero false) = false
  /\ SFltb y (S754_zero false) = false.
Proof.
  intros Hy Hlt.
  destruct y as [ sy | [ | ] | | [ | ] my ey ]; cbn in Hy; try discriminate;
    destruct x as [ sx | [ | ] | | [ | ] mx ex ]; cbn in Hlt; try discriminate;
    cbn; repeat split; try reflexivity.
  - exact Hlt.
  - unfold SFltb in *. cbn in *.
    destruct (ey ?= ex) eqn:E.
    + apply Z.compare_eq in E. subst. rewrite Z.compare_refl.
      destruct (Pos.compare_cont Eq my mx) eqn:C; try discriminate.
      pose proof (Pos.compare_cont_antisym my mx Eq) as A. cbn [CompOpp] in A.
      rewrite <- A, C. reflexivity.
    + rewrite Z.compare_antisym, E. reflexivity.
    + discriminate.
Qed.

(** Adding FLT_MIN to a magnitude that is not NaN gives a positive
    number or [+infinity]: the guarded denominator is never zero. *)
Lemma abs_plus_FLT_MIN x :
  x <> S754_nan ->
  (exists m e, SFadd prec emax (SFabs x) FLT_MIN = S754_finite false m e)
  \/ SFadd prec emax (SFabs x) FLT_MIN = S754_infinity false.
Proof.
  intros Hx. destruct x as [ s | s | | s m e ]; try congruence.
  - left. eexists; eexists. reflexivity.
  - right. reflexivity.
  - cbn [SFabs]. unfold FLT_MIN. cbn [SFadd cond_Zopp].
    set (ez := Z.min e (-149)).
    pose proof (shl_align_value m e ez ltac:(lia)) as H1.
    pose proof (shl_align_value 8388608 (-149) ez ltac:(lia)) as H2.
    set (k1 := fst (shl_align m e ez)) in *.
    set (k2 := fst (shl_align 8388608 (-149) ez)) in *.
    change (Z.pos k1 + Z.pos k2) with (Z.pos (k1 + k2)).
    cbn [binary_normalize].
    assert (Hd : emin prec emax < Zdigits2 (Z.pos (k1 + k2)) + ez).
    { rewrite Zdigits2_log2.
      assert (Hp : 0 < 2 ^ (-149 - ez)) by (apply Z.pow_pos_nonneg; lia).
      assert (Hle : 2 ^ (23 + (-149 - ez)) <= Z.pos (k1 + k2)).
      { rewrite Z.pow_add_r by lia. change (2 ^ 23) with 8388608. lia. }
      apply Z.log2_le_mono in Hle.
      rewrite Z.log2_pow2 in Hle by lia.
      unfold emin, emax, prec. lia. }
    destruct (binary_round_nonzero false (k1 + k2) ez Hd) as [(m' & e' & Hr & _) | Hr].
    + left. exists m', e'. exact Hr.
    + right. exact Hr.
Qed.

Lemma zero_div_positive (d : spec_float) :
  (exists m e, d = S754_finite false m e) \/ d = S754_infinity false ->
  SFdiv prec emax (S754_zero false) d = S754_zero false.
Proof. intros [(m & e & ->) | ->]; reflexivity. Qed.

(** The polynomial at the quotient zero. *)
Lemma atan_poly_zero_binary32 :
  let a := S754_zero false in
  let s := SFmul prec emax a a in
  SFadd prec emax
    (SFmul prec emax
       (SFmul prec emax
          (SFsub prec emax
             (SFmul prec emax
                (SFadd prec emax (SFmul prec emax (SFopp (flit 0.0464964749)) s)
                   (flit 0.15931422)) s)
             (flit 0.327622764)) s) a) a
  = S754_zero false.
Proof. vm_compute. reflexivity. Qed.

End Atan2Facts.

Section Atan2_binary32.

Import Binary32 Binary32Facts Atan2Facts.

(** X10: over binary32, for every [x] and every [y] that is neither a
    zero nor NaN, [fast_atan2(-y, x)] is the opposite of
    [fast_atan2(y, x)], bit for bit. *)
Theorem fast_atan2_odd_in_y (y x : spec_float) :
  SFltb y (flit 0.0) = true \/ SFltb (flit 0.0) y = true ->
  F32.fast_atan2 (SFopp y) x = SFopp (F32.fast_atan2 y x).
Proof.
  intros Hy. unfold F32.fast_atan2, fast_atan2. cbv zeta.
  cbn [fabs fltb fneg binary32].
  rewrite SFabs_opp, flit_0.
  match goal with
  | |- (if SFltb (SFopp y) _ then SFopp ?r else ?r) = _ => generalize r
  end.
  intros r. rewrite flit_0 in Hy.
  destruct y as [ s | [ | ] | | [ | ] m e ]; cbn in Hy |- *;
    try (destruct Hy; discriminate); rewrite ?SFopp_involutive; reflexivity.
Qed.

(** X11: over binary32, for [x > 0] and [y] not below zero,
    [fast_atan2(y, -x)] is [3.14159274f - fast_atan2(y, x)], bit for
    bit: the left half-plane mirrors the right one. *)
Theorem fast_atan2_mirror_in_x (y x : spec_float) :
  SFltb (flit 0.0) x = true ->
  SFltb y (flit 0.0) = false ->
  F32.fast_atan2 y (SFopp x) = SFsub prec emax (flit 3.14159274) (F32.fast_atan2 y x).
Proof.
  rewrite flit_0. intros Hx Hy.
  destruct (SFltb_opp_positive x Hx) as [Hx1 Hx2].
  unfold F32.fast_atan2, fast_atan2. cbv zeta.
  cbn [fabs fltb fneg fsub binary32].
  rewrite SFabs_opp, flit_0, Hx1, Hx2, Hy. reflexivity.
Qed.

(** X12: over binary32, for [0 <= y < x], exchanging the arguments gives
    the complement: [fast_atan2(x, y)] is
    [1.57079637f - fast_atan2(y, x)], bit for bit. *)
Theorem fast_atan2_swap (y x : spec_float) :
  SFleb (flit 0.0) y = true -> SFltb y x = true ->
  F32.fast_atan2 x y = SFsub prec emax (flit 1.57079637) (F32.fast_atan2 y x).
Proof.
  rewrite flit_0. intros Hy Hlt.
  destruct (SFltb_order_abs y x Hy Hlt) as (H1 & H2 & H3 & H4).
  unfold F32.fast_atan2, fast_atan2, std_min, std_max. cbv zeta.
  cbn [fabs fltb fneg fsub binary32].
  rewrite flit_0, H1, H2, H3, H4. reflexivity.
Qed.


(** X14: over binary32 the result is exact on the axes.  For [y] a zero
    of either sign and [x] not NaN it is [+0] when [x] is not negative
    and [3.14159274f] when [x < 0]; for [x] a zero of either sign and
    [y] neither zero nor NaN it is [1.57079637f] with the sign of
    [y]. *)
Theorem fast_atan2_on_axes :
  (forall (s : bool) (x : spec_float),
      x <> S754_nan ->
      F32.fast_atan2 (S754_zero s) x
      = if SFltb x (flit 0.0) then flit 3.14159274 else flit 0.0)
  /\ (forall (s : bool) (y : spec_float),
         SFltb y (flit 0.0) = true \/ SFltb (flit 0.0) y = true ->
         F32.fast_atan2 y (S754_zero s)
         = if SFltb y (flit 0.0) then SFopp (flit 1.57079637) else flit 1.57079637).
Proof.
  split.
  - intros s x Hx.
    unfold F32.fast_atan2, fast_atan2, std_min, std_max. cbv zeta.
    cbn [fabs fltb fneg fadd fsub fmul fdiv binary32 numeric_limits_min].
    change (SFabs (S754_zero s)) with (S754_zero false).
    rewrite SFltb_abs_zero.
    replace (if SFltb (S754_zero false) (SFabs x) then S754_zero false else SFabs x)
      with (S754_zero false)
      by (destruct x as [ sx | sx | | sx m e ]; try reflexivity; congruence).
    rewrite (zero_div_positive _ (abs_plus_FLT_MIN x Hx)).
    rewrite atan_poly_zero_binary32.
    rewrite flit_0.
    destruct (SFltb x (S754_zero false)); vm_compute; reflexivity.
  - intros s y Hy.
    assert (Hn : y <> S754_nan) by (intros ->; destruct Hy; discriminate).
    unfold F32.fast_atan2, fast_atan2, std_min, std_max. cbv zeta.
    cbn [fabs fltb fneg fadd fsub fmul fdiv binary32 numeric_limits_min].
    change (SFabs (S754_zero s)) with (S754_zero false).
    rewrite SFltb_abs_zero.
    assert (Hp : SFltb (S754_zero false) (SFabs y) = true).
    { rewrite flit_0 in Hy.
      destruct y as [ sy | [ | ] | | [ | ] m e ]; cbn in Hy |- *;
        try reflexivity; destruct Hy; discriminate. }
    rewrite Hp.
    rewrite (zero_div_positive _ (abs_plus_FLT_MIN y Hn)).
    rewrite atan_poly_zero_binary32.
    rewrite flit_0.
    replace (SFltb (S754_zero s) (S754_zero false)) with false by (destruct s; reflexivity).
    destruct (SFltb y (S754_zero false)); vm_compute; reflexivity.
Qed.

End Atan2_binary32.

Section Atan2_infinite.

Import Binary32 Binary32Facts Atan2Facts.

(** X15: over binary32, an infinite [x] with a finite [y] gives the
    angle of the axis, [0] or [3.14159274f] with the sign of [y]; an
    infinite [y] with a finite [x] gives [1.57079637f] with the sign of
    [y]; two infinite arguments give NaN. *)
Theorem fast_atan2_infinite :
  (forall (s : bool) (y : spec_float),
      F32.is_finite y = true ->
      F32.fast_atan2 y (S754_infinity s)
      = let r := if s then flit 3.14159274 else flit 0.0 in
        if SFltb y (flit 0.0) then SFopp r else r)
  /\ (forall (s : bool) (x : spec_float),
         F32.is_finite x = true ->
         F32.fast_atan2 (S754_infinity s) x
         = if s then SFopp (flit 1.57079637) else flit 1.57079637)
  /\ (forall s s' : bool,
         F32.fast_atan2 (S754_infinity s) (S754_infinity s') = S754_nan).
Proof.
  split; [ | split ].
  - intros s y Hy.
    unfold F32.fast_atan2, fast_atan2, std_min, std_max. cbv zeta.
    cbn [fabs fltb fneg fadd fsub fmul fdiv binary32 numeric_limits_min].
    change (SFabs (S754_infinity s)) with (S754_infinity false).
    replace (SFltb (SFabs y) (S754_infinity false)) with true
      by (destruct y as [ sy | sy | | sy m e ]; try discriminate; reflexivity).
    replace (SFltb (S754_infinity false) (SFabs y)) with false
      by (destruct y as [ sy | sy | | sy m e ]; try discriminate; reflexivity).
    change (SFadd prec emax (S754_infinity false) FLT_MIN) with (S754_infinity false).
    replace (SFdiv prec emax (SFabs y) (S754_infinity false)) with (S754_zero false)
      by (destruct y as [ sy | sy | | sy m e ]; try discriminate; reflexivity).
    rewrite atan_poly_zero_binary32. rewrite flit_0.
    destruct s, (SFltb y (S754_zero false)); vm_compute; reflexivity.
  - intros s x Hx.
    unfold F32.fast_atan2, fast_atan2, std_min, std_max. cbv zeta.
    cbn [fabs fltb fneg fadd fsub fmul fdiv binary32 numeric_limits_min].
    change (SFabs (S754_infinity s)) with (S754_infinity false).
    replace (SFltb (SFabs x) (S754_infinity false)) with true
      by (destruct x as [ sx | sx | | sx m e ]; try discriminate; reflexivity).
    replace (SFltb (S754_infinity false) (SFabs x)) with false
      by (destruct x as [ sx | sx | | sx m e ]; try discriminate; reflexivity).
    change (SFadd prec emax (S754_infinity false) FLT_MIN) with (S754_infinity false).
    replace (SFdiv prec emax (SFabs x) (S754_infinity false)) with (S754_zero false)
      by (destruct x as [ sx | sx | | sx m e ]; try discriminate; reflexivity).
    rewrite atan_poly_zero_binary32. rewrite flit_0.
    destruct s, (SFltb x (S754_zero false)); vm_compute; reflexivity.
  - intros [ | ] [ | ]; vm_compute; reflexivity.
Qed.

End Atan2_infinite.

Lemma fast_atan2_infinite_witness :
  F32.fast_atan2 (SFopp (flit 2.0)) (S754_infinity true) = SFopp (flit 3.14159274)
  /\ F32.fast_atan2 (S754_infinity true) (flit 2.0) = SFopp (flit 1.57079637).
Proof.
  split.
  - refine (eq_trans (proj1 fast_atan2_infinite true (SFopp (flit 2.0)) _) _);
      vm_compute; reflexivity.
  - refine (eq_trans (proj1 (proj2 fast_atan2_infinite) true (flit 2.0) _) _);
      vm_compute; reflexivity.
Defined.

Lemma fast_atan2_odd_in_y_witness :
  F32.fast_atan2 (SFopp (flit 1.0)) (flit 2.0) = SFopp (F32.fast_atan2 (flit 1.0) (flit 2.0)).
Proof.
  apply (fast_atan2_odd_in_y (flit 1.0) (flit 2.0)). right. vm_compute. reflexivity.
Defined.

Lemma fast_atan2_mirror_in_x_witness :
  F32.fast_atan2 (flit 1.0) (SFopp (flit 2.0))
  = SFsub Binary32.prec Binary32.emax (flit 3.14159274) (F32.fast_atan2 (flit 1.0) (flit 2.0)).
Proof.
  apply (fast_atan2_mirror_in_x (flit 1.0) (flit 2.0)); vm_compute; reflexivity.
Defined.

Lemma fast_atan2_swap_witness :
  F32.fast_atan2 (flit 2.0) (flit 1.0)
  = SFsub Binary32.prec Binary32.emax (flit 1.57079637) (F32.fast_atan2 (flit 1.0) (flit 2.0)).
Proof.
  apply (fast_atan2_swap (flit 1.0) (flit 2.0)); vm_compute; reflexivity.
Defined.

Lemma fast_atan2_on_axes_witness :
  F32.fast_atan2 (S754_zero true) (SFopp (flit 2.0)) = flit 3.14159274
  /\ F32.fast_atan2 (SFopp (flit 2.0)) (S754_zero false) = SFopp (flit 1.57079637).
Proof.
  split.
  - refine (eq_trans (proj1 fast_atan2_on_axes true (SFopp (flit 2.0)) _) _).
    + intros H. vm_compute in H. discriminate H.
    + vm_compute. reflexivity.
  - refine (eq_trans (proj2 fast_atan2_on_axes false (SFopp (flit 2.0)) _) _).
    + left. vm_compute. reflexivity.
    + vm_compute. reflexivity.
Defined.

(** ** The arctangent in exact arithmetic: the octant of the result *)

Section Atan2_octants.

Import Exact ExactFacts.

Local Open Scope R_scope.



End Atan2_octants.


(** ** The arctangent in exact arithmetic: accuracy *)

Section Atan_accuracy.

Import Exact ExactFacts.

Local Open Scope R_scope.








End Atan_accuracy.


Section Atan2_accuracy.

Import Exact ExactFacts.

Local Open Scope R_scope.





End Atan2_accuracy.


(** ** Deadlines while time passes *)

Section Deadlines.

Import Timing TimingFacts.

Variable f : Z.

(** The timeout left at tick [tick1] of a deadline that was set at tick
    [tick0]: the timeout less the time elapsed, modulo [2^32], or zero
    when bit 31 of that is set. *)
Lemma timeout_left (tick0 tick1 timeout_ms : Z) :
  let elapsed := uint32_t (now_ms f tick1 - now_ms f tick0) in
  let left := uint32_t (timeout_ms - elapsed) in
  deadline_to_timeout f tick1 (timeout_to_deadline f tick0 timeout_ms)
  = if 2 ^ 31 <=? left then 0 else left.
Proof.
  intros elapsed left.
  unfold deadline_to_timeout, timeout_to_deadline. cbv zeta.
  assert (E : uint32_t (uint32_t (now_ms f tick0 + timeout_ms) - now_ms f tick1) = left).
  { subst left elapsed. unfold uint32_t.
    rewrite Zminus_mod_idemp_l, Zminus_mod_idemp_r. f_equal. lia. }
  rewrite E.
  rewrite land_high_bit by apply uint32_t_range.
  destruct (2 ^ 31 <=? left); reflexivity.
Qed.

Lemma uint32_t_negative z : - 2 ^ 32 <= z < 0 -> uint32_t z = z + 2 ^ 32.
Proof.
  intros Hz. unfold uint32_t.
  rewrite <- (Z_mod_plus_full z 1 (2 ^ 32)).
  apply Z.mod_small. lia.
Qed.

(** X18: a deadline made by [timeout_to_deadline] from a timeout below
    [2^31] ms counts down: read back by [deadline_to_timeout] after
    [elapsed] ms (the clock may have wrapped in between) it gives
    [timeout - elapsed] as long as the deadline has not passed, and [0]
    from then on until the deadline lies [2^31] ms in the past. *)
Theorem deadline_counts_down (tick0 tick1 timeout_ms : Z) :
  0 <= timeout_ms < 2 ^ 31 ->
  let elapsed := uint32_t (now_ms f tick1 - now_ms f tick0) in
  (elapsed <= timeout_ms ->
   deadline_to_timeout f tick1 (timeout_to_deadline f tick0 timeout_ms)
   = timeout_ms - elapsed)
  /\ (timeout_ms < elapsed <= timeout_ms + 2 ^ 31 ->
      deadline_to_timeout f tick1 (timeout_to_deadline f tick0 timeout_ms) = 0).
Proof.
  intros Ht elapsed. rewrite timeout_left. fold elapsed.
  pose proof (uint32_t_range (now_ms f tick1 - now_ms f tick0)) as He. fold elapsed in He.
  split; intros H.
  - replace (uint32_t (timeout_ms - elapsed)) with (timeout_ms - elapsed)
      by (unfold uint32_t; symmetry; apply Z.mod_small; lia).
    destruct (2 ^ 31 <=? timeout_ms - elapsed) eqn:E;
      [ apply Z.leb_le in E; lia | reflexivity ].
  - rewrite uint32_t_negative by lia.
    destruct (2 ^ 31 <=? timeout_ms - elapsed + 2 ^ 32) eqn:E;
      [ reflexivity | apply Z.leb_gt in E; lia ].
Qed.

(** X19: a deadline that lies more than [2^31] ms in the past reads as
    lying in the future: [deadline_to_timeout] then returns
    [2^32 - (elapsed - timeout)], which is not zero. *)
Theorem deadline_far_in_the_past (tick0 tick1 timeout_ms : Z) :
  0 <= timeout_ms < 2 ^ 31 ->
  let elapsed := uint32_t (now_ms f tick1 - now_ms f tick0) in
  timeout_ms + 2 ^ 31 < elapsed ->
  deadline_to_timeout f tick1 (timeout_to_deadline f tick0 timeout_ms)
  = 2 ^ 32 - (elapsed - timeout_ms)
  /\ 0 < deadline_to_timeout f tick1 (timeout_to_deadline f tick0 timeout_ms) < 2 ^ 31.
Proof.
  intros Ht elapsed H. rewrite timeout_left. fold elapsed.
  pose proof (uint32_t_range (now_ms f tick1 - now_ms f tick0)) as He. fold elapsed in He.
  rewrite uint32_t_negative by lia.
  destruct (2 ^ 31 <=? timeout_ms - elapsed + 2 ^ 32) eqn:E;
    [ apply Z.leb_le in E; lia | lia ].
Qed.

(** X20: a timeout of [2^31] ms or more does not survive: the deadline
    [timeout_to_deadline] makes of it reads as already passed, at once. *)
Theorem timeout_of_half_range_is_lost (tick timeout_ms : Z) :
  2 ^ 31 <= timeout_ms < 2 ^ 32 ->
  deadline_to_timeout f tick (timeout_to_deadline f tick timeout_ms) = 0.
Proof.
  intros Ht. rewrite timeout_left.
  unfold uint32_t. rewrite Z.sub_diag. rewrite Z.mod_0_l by lia. rewrite Z.sub_0_r.
  rewrite (Z.mod_small timeout_ms) by lia.
  destruct (2 ^ 31 <=? timeout_ms) eqn:E; [ reflexivity | apply Z.leb_gt in E; lia ].
Qed.

(** X21: [is_in_the_future] is not zero exactly when the time lies
    ahead of the clock by more than 0 and less than [2^31] ms, modulo
    [2^32]; its value is below [2^31], so it is not changed by the
    conversion to the return type [int]. *)
Theorem is_in_the_future_iff (tick time_ms : Z) :
  let ahead := uint32_t (time_ms - now_ms f tick) in
  (is_in_the_future f tick time_ms <> 0 <-> 0 < ahead < 2 ^ 31)
  /\ 0 <= is_in_the_future f tick time_ms < 2 ^ 31.
Proof.
  intros ahead.
  unfold is_in_the_future, deadline_to_timeout. cbv zeta. fold ahead.
  pose proof (uint32_t_range (time_ms - now_ms f tick)) as Ha. fold ahead in Ha.
  rewrite land_high_bit by exact Ha.
  destruct (2 ^ 31 <=? ahead) eqn:E;
    [ change (2147483648 =? 0) with false | change (0 =? 0) with true ]; cbn [negb];
    [ apply Z.leb_le in E | apply Z.leb_gt in E ];
    (split; [ split; intros H | ]; lia).
Qed.

(** For a 32-bit tick count and a positive tick frequency the
    product by 1000 cannot overflow its 64 bits, so the clock reads
    [floor(1000 * tick / f)] modulo [2^32]; and [f] ticks later it reads
    1000 ms more. *)
Lemma now_ms_advances (tick : Z) :
  0 < f ->
  0 <= tick < 2 ^ 32 ->
  now_ms f tick = (1000 * tick / f) mod 2 ^ 32
  /\ (tick + f < 2 ^ 32 -> now_ms f (tick + f) = uint32_t (now_ms f tick + 1000)).
Proof.
  intros Hf Ht.
  assert (G : forall t, 0 <= t < 2 ^ 32 -> now_ms f t = (1000 * t / f) mod 2 ^ 32).
  { intros t Hr. unfold now_ms, uint32_t, uint64_t.
    rewrite (Z.mod_small t) by lia.
    rewrite (Z.mod_small (1000 * t)) by lia. reflexivity. }
  split; [ apply G; exact Ht | ].
  intros Hw. rewrite !G by lia. unfold uint32_t.
  rewrite Zplus_mod_idemp_l. f_equal.
  replace (1000 * (tick + f)) with (1000 * tick + 1000 * f) by lia.
  rewrite Z.div_add by lia. reflexivity.
Qed.

End Deadlines.

Lemma deadline_counts_down_witness :
  Timing.deadline_to_timeout 1000 4294967295 (Timing.timeout_to_deadline 1000 4294967290 100) = 95
  /\ Timing.deadline_to_timeout 1000 200 (Timing.timeout_to_deadline 1000 4294967290 100) = 0.
Proof.
  split.
  - refine (eq_trans (proj1 (deadline_counts_down 1000 4294967290 4294967295 100 _) _) _);
      vm_compute; try reflexivity; try (split; congruence); congruence.
  - refine (proj2 (deadline_counts_down 1000 4294967290 200 100 _) _);
      vm_compute; split; congruence.
Defined.

Lemma deadline_far_in_the_past_witness :
  Timing.deadline_to_timeout 1000 3000000000 (Timing.timeout_to_deadline 1000 0 100)
  = 2 ^ 32 - (3000000000 - 100).
Proof.
  refine (eq_trans (proj1 (deadline_far_in_the_past 1000 0 3000000000 100 _ _)) _);
    vm_compute; try reflexivity; split; congruence.
Defined.

Lemma timeout_of_half_range_is_lost_witness :
  Timing.deadline_to_timeout 1000 5 (Timing.timeout_to_deadline 1000 5 3000000000) = 0.
Proof.
  apply (timeout_of_half_range_is_lost 1000 5 3000000000).
  vm_compute. split; congruence.
Defined.

Lemma now_ms_advances_witness :
  Timing.now_ms 100 7 = (1000 * 7 / 100) mod 2 ^ 32
  /\ (7 + 100 < 2 ^ 32 ->
      Timing.now_ms 100 (7 + 100) = Timing.uint32_t (Timing.now_ms 100 7 + 1000)).
Proof.
  apply (now_ms_advances 100 7); vm_compute; try reflexivity; split; congruence.
Defined.

(** ** The microsecond clock and the busy wait *)

Section Clock.

Import Timing TimingFacts Board.

Variable ms_at : nat -> Z.
Variable cnt_at : nat -> Z.

Local Open Scope nat_scope.

(** One pass of the loop. *)
Lemma micros_pass (fuel t : nat) :
  micros ms_at cnt_at (S fuel) t
  = if settled ms_at t then Some (snapshot ms_at cnt_at t, t + 3)
    else micros ms_at cnt_at fuel (t + 3).
Proof.
  cbn [micros]. unfold bind, HAL_GetTick, TIM_TIME_BASE_CNT, settled, snapshot, ret.
  replace (t + 2) with (S (S t)) by lia.
  replace (t + 1) with (S t) by lia.
  replace (t + 3) with (S (S (S t))) by lia.
  destruct (uint32_t (ms_at t) =? uint32_t (ms_at (S (S t))))%Z; reflexivity.
Qed.

(** The truncations inside [(ms * 1000) + cycle_cnt] leave the sum
    modulo [2^32]. *)
Lemma snapshot_value (n : nat) :
  snapshot ms_at cnt_at n = ((1000 * ms_at n + cnt_at (n + 1)) mod 2 ^ 32)%Z.
Proof.
  unfold snapshot, uint32_t.
  rewrite Zplus_mod_idemp_l, Zplus_mod_idemp_r.
  rewrite <- Zplus_mod_idemp_l, Zmult_mod_idemp_l, Zplus_mod_idemp_l.
  f_equal. lia.
Qed.

Lemma micros_first_settled (k : nat) : forall fuel t,
  (forall i, i < k -> settled ms_at (t + 3 * i) = false) ->
  settled ms_at (t + 3 * k) = true ->
  k < fuel ->
  micros ms_at cnt_at fuel t = Some (snapshot ms_at cnt_at (t + 3 * k), t + 3 * k + 3).
Proof.
  induction k as [ | k IH ]; intros fuel t Hbefore Hk Hfuel;
    (destruct fuel as [ | fuel ]; [ lia | ]); rewrite micros_pass.
  - replace (t + 3 * 0) with t in * by lia. rewrite Hk. reflexivity.
  - pose proof (Hbefore 0 ltac:(lia)) as H0.
    replace (t + 3 * 0) with t in H0 by lia. rewrite H0.
    rewrite (IH fuel (t + 3)).
    + f_equal. f_equal; [ f_equal | ]; lia.
    + intros i Hi. replace (t + 3 + 3 * i) with (t + 3 * S i) by lia.
      apply Hbefore. lia.
    + replace (t + 3 + 3 * k) with (t + 3 * S k) by lia. exact Hk.
    + lia.
Qed.

Lemma micros_inv (fuel : nat) : forall t v t',
  micros ms_at cnt_at fuel t = Some (v, t') ->
  exists k,
    k < fuel
    /\ (forall i, i < k -> settled ms_at (t + 3 * i) = false)
    /\ settled ms_at (t + 3 * k) = true
    /\ v = snapshot ms_at cnt_at (t + 3 * k)
    /\ t' = t + 3 * k + 3.
Proof.
  induction fuel as [ | fuel IH ]; intros t v t' E; [ discriminate | ].
  rewrite micros_pass in E.
  destruct (settled ms_at t) eqn:Hs.
  - exists 0. injection E as <- <-.
    replace (t + 3 * 0) with t by lia.
    repeat split; try lia; auto.
  - destruct (IH _ _ _ E) as (k & Hk & Hb & Hset & Hv & Ht).
    exists (S k).
    replace (t + 3 * S k) with (t + 3 + 3 * k) by lia.
    repeat split; try lia; auto.
    intros [ | i ] Hi.
    + replace (t + 3 * 0) with t by lia. exact Hs.
    + replace (t + 3 * S i) with (t + 3 + 3 * i) by lia. apply Hb. lia.
Qed.

Lemma micros_advances (fuel t : nat) (v : Z) (t' : nat) :
  micros ms_at cnt_at fuel t = Some (v, t') -> t < t'.
Proof.
  intros E. destruct (micros_inv _ _ _ _ E) as (k & _ & _ & _ & _ & ->). lia.
Qed.

(** X22: [micros] returns from the first pass of its loop in which the
    millisecond counter reads the same before and after the timer
    register is read, and only from such a pass; the value is
    [1000 * ms + cnt] modulo [2^32] for the readings of that pass, three
    hardware accesses having been made in each pass. *)
Theorem micros_returns_first_consistent_reading (fuel t : nat) (v : Z) (t' : nat) :
  micros ms_at cnt_at fuel t = Some (v, t') <->
  exists k,
    k < fuel
    /\ (forall i, i < k -> settled ms_at (t + 3 * i) = false)
    /\ settled ms_at (t + 3 * k) = true
    /\ v = ((1000 * ms_at (t + 3 * k) + cnt_at (t + 3 * k + 1)) mod 2 ^ 32)%Z
    /\ t' = t + 3 * k + 3.
Proof.
  split.
  - intros E. destruct (micros_inv _ _ _ _ E) as (k & Hk & Hb & Hs & Hv & Ht).
    exists k. rewrite <- snapshot_value. auto.
  - intros (k & Hk & Hb & Hs & -> & ->). rewrite <- snapshot_value.
    apply micros_first_settled; assumption.
Qed.

(** X23: if the millisecond counter changes in every pass, [micros]
    never returns: no amount of fuel yields a result. *)
Theorem micros_spins_while_tick_changes (t : nat) :
  (forall i, settled ms_at (t + 3 * i) = false) ->
  forall fuel, micros ms_at cnt_at fuel t = None.
Proof.
  intros H fuel.
  destruct (micros ms_at cnt_at fuel t) as [[v t'] | ] eqn:E; [ | reflexivity ].
  destruct (micros_inv _ _ _ _ E) as (k & _ & _ & Hs & _).
  rewrite H in Hs. discriminate.
Qed.

(** X24: if the millisecond counter changes at most once in the course
    of six consecutive accesses (before access [t + j] it reads one
    value, from then on another), [micros] returns after at most two
    passes. *)
Theorem micros_retries_at_most_once (fuel t j : nat) :
  (forall i, i < j -> ms_at (t + i) = ms_at t) ->
  (forall i, j <= i < 6 -> ms_at (t + i) = ms_at (t + 5)) ->
  exists v t',
    micros ms_at cnt_at (S (S fuel)) t = Some (v, t') /\ t' <= t + 6.
Proof.
  intros Hlow Hhigh.
  destruct (settled ms_at t) eqn:H0.
  - exists (snapshot ms_at cnt_at t), (t + 3).
    rewrite micros_pass, H0. split; [ reflexivity | lia ].
  - exists (snapshot ms_at cnt_at (t + 3)), (t + 3 + 3).
    rewrite micros_pass, H0, micros_pass.
    assert (H1 : settled ms_at (t + 3) = true).
    { unfold settled. apply Z.eqb_eq. f_equal.
      destruct (Nat.le_gt_cases j 3) as [Hj | Hj].
      - replace (t + 3 + 2) with (t + 5) by lia. apply Hhigh. lia.
      - exfalso. unfold settled in H0. apply Z.eqb_neq in H0. apply H0.
        rewrite (Hlow 2) by lia. reflexivity. }
    rewrite H1. split; [ reflexivity | lia ].
Qed.

Lemma delay_us_wait_inv (fuel inner : nat) (start us : Z) : forall t t',
  delay_us_wait ms_at cnt_at fuel inner start us t = Some (tt, t') ->
  exists now t2,
    t <= t2
    /\ micros ms_at cnt_at inner t2 = Some (now, t')
    /\ (uint32_t us <= uint32_t (now - start))%Z.
Proof.
  induction fuel as [ | fuel IH ]; intros t t' E; [ discriminate | ].
  cbn [delay_us_wait] in E. unfold bind in E.
  destruct (micros ms_at cnt_at inner t) as [[now t1] | ] eqn:Em; [ | discriminate ].
  destruct (uint32_t (now - start) <? uint32_t us)%Z eqn:Ec.
  - destruct (IH _ _ E) as (now' & t2 & Hle & Em' & Hus).
    exists now', t2. pose proof (micros_advances _ _ _ _ Em).
    repeat split; auto; lia.
  - injection E as <-. exists now, t. apply Z.ltb_ge in Ec. auto.
Qed.

(** X25: [delay_us] does not return early: when it returns, the last
    value it read from [micros] is at least [us] past the first one, the
    difference being taken modulo [2^32], so that a wrap of the clock
    during the wait does no harm. *)
Theorem delay_us_never_returns_early (fuel : nat) (us : Z) (t t' : nat) :
  delay_us ms_at cnt_at fuel us t = Some (tt, t') ->
  exists start t1 now t2,
    micros ms_at cnt_at fuel t = Some (start, t1)
    /\ t1 <= t2
    /\ micros ms_at cnt_at fuel t2 = Some (now, t')
    /\ (uint32_t us <= uint32_t (now - start))%Z.
Proof.
  unfold delay_us, bind. intros E.
  destruct (micros ms_at cnt_at fuel t) as [[start t1] | ] eqn:Em; [ | discriminate ].
  destruct (delay_us_wait_inv _ _ _ _ _ _ E) as (now & t2 & Hle & Em' & Hus).
  exists start, t1, now, t2. auto.
Qed.

Lemma delay_us_wait_polls (inner : nat) (start us : Z) (l : list Z) :
  forall fuel t now t',
    polls ms_at cnt_at inner t (l ++ [now]) t' ->
    Forall (fun v => (uint32_t (v - start) < uint32_t us)%Z) l ->
    (uint32_t us <= uint32_t (now - start))%Z ->
    length l < fuel ->
    delay_us_wait ms_at cnt_at fuel inner start us t = Some (tt, t').
Proof.
  induction l as [ | v l IH ]; intros fuel t now t' Hp Hl Hnow Hfuel;
    (destruct fuel as [ | fuel ]; [ cbn in Hfuel; lia | ]);
    cbn [app polls] in Hp; destruct Hp as (t1 & Em & Hp);
    cbn [delay_us_wait]; unfold bind; rewrite Em.
  - cbn [polls] in Hp. subst t1.
    apply Z.ltb_ge in Hnow. rewrite Hnow. reflexivity.
  - inversion Hl as [ | ? ? Hv Hl' ]; subst.
    apply Z.ltb_lt in Hv. rewrite Hv.
    apply (IH fuel t1 now t'); auto. cbn in Hfuel. lia.
Qed.

(** X26: [delay_us] returns at the first reading of [micros] that is at
    least [us] past the starting value (modulo [2^32]): if the readings
    that follow the first are [l], all less than [us] past it, and then
    [now], which is not, the wait ends in the state [t'] that the
    reading [now] leaves. *)
Theorem delay_us_returns_at_first_expiry
  (fuel : nat) (us : Z) (t t1 t' : nat) (start now : Z) (l : list Z) :
  micros ms_at cnt_at fuel t = Some (start, t1) ->
  polls ms_at cnt_at fuel t1 (l ++ [now]) t' ->
  Forall (fun v => (uint32_t (v - start) < uint32_t us)%Z) l ->
  (uint32_t us <= uint32_t (now - start))%Z ->
  length l < fuel ->
  delay_us ms_at cnt_at fuel us t = Some (tt, t').
Proof.
  intros Em Hp Hl Hnow Hfuel. unfold delay_us, bind. rewrite Em.
  apply (delay_us_wait_polls _ _ _ l _ _ now); assumption.
Qed.

End Clock.

Lemma micros_spins_while_tick_changes_witness :
  Board.micros (fun n => Z.of_nat n) cnt_near_wrap 50 0%nat = None.
Proof.
  apply (micros_spins_while_tick_changes (fun n => Z.of_nat n) cnt_near_wrap 0%nat).
  intros i. unfold Board.settled, Timing.uint32_t. apply Z.eqb_neq.
  intros H.
  pose proof (Zminus_mod (Z.of_nat (0 + 3 * i + 2)) (Z.of_nat (0 + 3 * i)) (2 ^ 32)) as D.
  rewrite H, Z.sub_diag in D.
  replace (Z.of_nat (0 + 3 * i + 2) - Z.of_nat (0 + 3 * i)) with 2 in D by lia.
  discriminate D.
Defined.

Lemma micros_retries_at_most_once_witness :
  exists v t',
    Board.micros ms_stepping cnt_near_wrap 2 0%nat = Some (v, t') /\ (t' <= 0 + 6)%nat.
Proof.
  apply (micros_retries_at_most_once ms_stepping cnt_near_wrap 0%nat 0%nat 2%nat).
  - intros [ | [ | i ] ] Hi; try reflexivity. lia.
  - intros [ | [ | [ | [ | [ | [ | i ] ] ] ] ] ] Hi; try reflexivity; lia.
Defined.

Lemma delay_us_never_returns_early_witness :
  exists start t1 now t2,
    Board.micros ms_near_wrap cnt_near_wrap 5 0%nat = Some (start, t1)
    /\ (t1 <= t2)%nat
    /\ Board.micros ms_near_wrap cnt_near_wrap 5 t2 = Some (now, 9%nat)
    /\ Timing.uint32_t 5 <= Timing.uint32_t (now - start).
Proof.
  apply (delay_us_never_returns_early ms_near_wrap cnt_near_wrap 5%nat 5 0%nat 9%nat).
  vm_compute. reflexivity.
Defined.

Lemma delay_us_returns_at_first_expiry_witness :
  Board.delay_us ms_near_wrap cnt_near_wrap 5 5 0%nat = Some (tt, 9%nat).
Proof.
  apply (delay_us_returns_at_first_expiry ms_near_wrap cnt_near_wrap
           5%nat 5 0%nat 3%nat 9%nat 4294967291 1 [4294967294]).
  - vm_compute. reflexivity.
  - cbn [app Board.polls]. exists 6%nat. split; [ vm_compute; reflexivity | ].
    exists 9%nat. split; [ vm_compute; reflexivity | reflexivity ].
  - constructor; [ vm_compute; reflexivity | constructor ].
  - vm_compute. congruence.
  - cbn. lia.
Defined.

(** ** The microsecond clock against the time *)

Section True_time.

Import Timing TimingFacts Board.

(** The time in microseconds at each access never runs backwards, and
    stays below [1000 * 2^32], so that the millisecond counter does not
    wrap. *)
Variable time_at : nat -> Z.
Hypothesis time_range : forall n, 0 <= time_at n < 1000 * 2 ^ 32.
Hypothesis time_rises : forall n, time_at n <= time_at (S n).

Lemma time_monotone (a b : nat) : (a <= b)%nat -> time_at a <= time_at b.
Proof.
  intros Hab. induction Hab as [ | b Hab IH ]; [ lia | ].
  pose proof (time_rises b). lia.
Qed.

(** In a pass whose two readings of the millisecond counter agree, the
    counter had that value when the timer register was read, so the two
    parts belong together. *)
Lemma settled_true_time (n : nat) :
  settled (ms_of_time time_at) n = true ->
  snapshot (ms_of_time time_at) (cnt_of_time time_at) n = time_at (n + 1) mod 2 ^ 32.
Proof.
  unfold settled. intros H. apply Z.eqb_eq in H.
  rewrite snapshot_value.
  assert (R : forall m, 0 <= ms_of_time time_at m < 2 ^ 32).
  { intros m. unfold ms_of_time. pose proof (time_range m).
    split; [ apply Z.div_pos; lia | apply Z.div_lt_upper_bound; lia ]. }
  unfold uint32_t in H. rewrite !Z.mod_small in H by apply R.
  replace (n + 2)%nat with (S (S n)) in H by lia.
  replace (n + 1)%nat with (S n) by lia.
  assert (M : ms_of_time time_at (S n) = ms_of_time time_at n).
  { pose proof (time_rises n). pose proof (time_rises (S n)).
    assert (ms_of_time time_at n <= ms_of_time time_at (S n))
      by (apply Z.div_le_mono; lia).
    assert (ms_of_time time_at (S n) <= ms_of_time time_at (S (S n)))
      by (apply Z.div_le_mono; lia).
    lia. }
  f_equal. rewrite <- M. unfold ms_of_time, cnt_of_time.
  symmetry. apply Z.div_mod. lia.
Qed.

Lemma micros_true_time (fuel t : nat) (v : Z) (t' : nat) :
  micros (ms_of_time time_at) (cnt_of_time time_at) fuel t = Some (v, t') ->
  exists n, (t < n < t')%nat /\ v = time_at n mod 2 ^ 32.
Proof.
  intros E.
  destruct (micros_inv _ _ _ _ _ _ E) as (k & _ & _ & Hs & -> & ->).
  exists (t + 3 * k + 1)%nat. split; [ lia | ].
  apply settled_true_time. exact Hs.
Qed.

(** X27: on a clock that keeps time (the millisecond counter holds the
    whole milliseconds of a time that never runs backwards, the timer
    register the microseconds within the millisecond), the value
    [micros] returns is the time, modulo [2^32], at one instant between
    its call and its return: the instant at which it last read the timer
    register.  The retry keeps the two parts of the value together. *)
Theorem micros_reads_true_time (fuel t : nat) (v : Z) (t' : nat) :
  micros (ms_of_time time_at) (cnt_of_time time_at) fuel t = Some (v, t') ->
  (t + 3 <= t')%nat /\ v = time_at (t' - 2) mod 2 ^ 32.
Proof.
  intros E.
  destruct (micros_inv _ _ _ _ _ _ E) as (k & _ & _ & Hs & -> & ->).
  split; [ lia | ].
  replace (t + 3 * k + 3 - 2)%nat with (t + 3 * k + 1)%nat by lia.
  apply settled_true_time. exact Hs.
Qed.

(** X28: on a clock that keeps time, [delay_us] waits long enough: at
    least [us] microseconds pass between two instants that lie between
    its call and its return. *)
Theorem delay_us_waits_long_enough (fuel : nat) (us : Z) (t t' : nat) :
  delay_us (ms_of_time time_at) (cnt_of_time time_at) fuel us t = Some (tt, t') ->
  exists n1 n2,
    (t < n1 <= n2)%nat /\ (n2 < t')%nat
    /\ us mod 2 ^ 32 <= time_at n2 - time_at n1.
Proof.
  unfold delay_us, bind. intros E.
  destruct (micros (ms_of_time time_at) (cnt_of_time time_at) fuel t)
    as [[start t1] | ] eqn:Em; [ | discriminate ].
  destruct (delay_us_wait_inv _ _ _ _ _ _ _ _ E) as (now & t2 & Hle & Em' & Hus).
  destruct (micros_true_time _ _ _ _ Em) as (n1 & Hn1 & ->).
  destruct (micros_true_time _ _ _ _ Em') as (n2 & Hn2 & ->).
  exists n1, n2. repeat split; try lia.
  pose proof (time_monotone n1 n2 ltac:(lia)) as Hd.
  unfold uint32_t in Hus.
  rewrite <- Zminus_mod in Hus.
  pose proof (Z.mod_le (time_at n2 - time_at n1) (2 ^ 32) ltac:(lia) ltac:(lia)).
  lia.
Qed.

End True_time.

Lemma time_near_wrap_range (n : nat) : 0 <= time_near_wrap n < 1000 * 2 ^ 32.
Proof. unfold time_near_wrap. lia. Qed.

Lemma time_near_wrap_rises (n : nat) : time_near_wrap n <= time_near_wrap (S n).
Proof. unfold time_near_wrap. lia. Qed.

Lemma micros_reads_true_time_witness :
  (0 + 3 <= 3)%nat /\ 4294967291 = time_near_wrap (3 - 2) mod 2 ^ 32.
Proof.
  apply (micros_reads_true_time time_near_wrap time_near_wrap_range time_near_wrap_rises
           5%nat 0%nat 4294967291 3%nat).
  vm_compute. reflexivity.
Defined.

Lemma delay_us_waits_long_enough_witness :
  exists n1 n2,
    (0 < n1 <= n2)%nat /\ (n2 < 9)%nat
    /\ 5 mod 2 ^ 32 <= time_near_wrap n2 - time_near_wrap n1.
Proof.
  apply (delay_us_waits_long_enough time_near_wrap time_near_wrap_range
           time_near_wrap_rises 5%nat 5 0%nat 9%nat).
  vm_compute. reflexivity.
Defined.

(** ** The order of the table *)

Section Descending.

Context {A : Type}.
Variable ltb : A -> A -> bool.

Lemma descending_nth (d : A) (l : list A) :
  descending ltb l = true ->
  forall i, (S i < length l)%nat -> ltb (nth (S i) l d) (nth i l d) = true.
Proof.
  induction l as [ | a [ | b t ] IH ]; intros H i Hi; cbn [length] in Hi; try lia.
  cbn [descending] in H. apply andb_true_iff in H. destruct H as [Hab Ht].
  destruct i as [ | i ]; [ exact Hab | ].
  apply (IH Ht i). cbn [length]. lia.
Qed.

End Descending.

Lemma lit_ltb_sound (a b : literal) :
  lit_ltb a b = true -> (Exact.of_literal a < Exact.of_literal b)%R.
Proof.
  unfold lit_ltb, Exact.of_literal. intros H. apply Z.ltb_lt in H.
  set (da := 10 ^ Z.of_nat (lit_scale a)) in *.
  set (db := 10 ^ Z.of_nat (lit_scale b)) in *.
  assert (Ha : 0 < da) by (apply Z.pow_pos_nonneg; lia).
  assert (Hb : 0 < db) by (apply Z.pow_pos_nonneg; lia).
  apply IZR_lt in H, Ha, Hb. rewrite !mult_IZR in H.
  apply (Rmult_lt_reg_r (IZR da * IZR db)); [ nra | ].
  replace (IZR (lit_mantissa a) / IZR da * (IZR da * IZR db))%R
    with (IZR (lit_mantissa a) * IZR db)%R by (field; lra).
  replace (IZR (lit_mantissa b) / IZR db * (IZR da * IZR db))%R
    with (IZR (lit_mantissa b) * IZR da)%R by (field; lra).
  exact H.
Qed.

(** In a descending list of literals a later entry is below an earlier
    one, as real numbers. *)
Lemma descending_literals (l : list literal) :
  descending lit_ltb l = true ->
  forall i j, (i < j < length l)%nat ->
              (nth j (map Exact.of_literal l) 0 < nth i (map Exact.of_literal l) 0)%R.
Proof.
  intros H i j [Hij Hj].
  induction j as [ | j IH ]; [ lia | ].
  assert (Hstep : (nth (S j) (map Exact.of_literal l) 0 < nth j (map Exact.of_literal l) 0)%R).
  { pose proof (descending_nth lit_ltb (Lit 0 0) l H j Hj) as Hs.
    apply lit_ltb_sound in Hs.
    rewrite <- (map_nth Exact.of_literal l (Lit 0 0) (S j)) in Hs.
    rewrite <- (map_nth Exact.of_literal l (Lit 0 0) j) in Hs.
    rewrite (nth_indep _ 0%R (Exact.of_literal (Lit 0 0))) by (rewrite length_map; lia).
    rewrite (nth_indep _ 0%R (Exact.of_literal (Lit 0 0)) (n := j))
      by (rewrite length_map; lia).
    exact Hs. }
  destruct (Nat.eq_dec i j) as [-> | Hne]; [ exact Hstep | ].
  eapply Rlt_trans; [ exact Hstep | apply IH; lia ].
Qed.

(** X29: the samples of [pdf_table] fall strictly from the first to the
    last: over binary32 every sample is below the one before it; read
    as real numbers a sample is below every earlier one, and all of them
    lie between 0 and 0.4. *)
Theorem pdf_table_decreasing :
  (forall i, (S i < 512)%nat ->
             fltb (nth (S i) (lut_samples (pdf_table (F := spec_float))) (flit 0.0))
                  (nth i (lut_samples (pdf_table (F := spec_float))) (flit 0.0)) = true)
  /\ (forall i j, (i < j < 512)%nat ->
                  (nth j (lut_samples (pdf_table (F := R))) 0
                   < nth i (lut_samples (pdf_table (F := R))) 0)%R)
  /\ (forall i, (i < 512)%nat ->
                (0 < nth i (lut_samples (pdf_table (F := R))) 0 < 0.4)%R).
Proof.
  assert (HD : descending lit_ltb pdf_table_samples = true) by (vm_compute; reflexivity).
  assert (HL : length pdf_table_samples = 512%nat) by (vm_compute; reflexivity).
  assert (HR : forall i j, (i < j < 512)%nat ->
                  (nth j (lut_samples (pdf_table (F := R))) 0
                   < nth i (lut_samples (pdf_table (F := R))) 0)%R).
  { intros i j Hij. rewrite <- HL in Hij.
    exact (descending_literals pdf_table_samples HD i j Hij). }
  split; [ | split ].
  - intros i Hi.
    apply (descending_nth (A := spec_float) fltb).
    + vm_compute. reflexivity.
    + unfold pdf_table. cbn [lut_samples]. rewrite length_map, HL. exact Hi.
  - exact HR.
  - intros i Hi.
    assert (H0 : (nth 0 (lut_samples (pdf_table (F := R))) 0 < 0.4)%R).
    { unfold pdf_table. cbn [lut_samples pdf_table_samples map nth flit Exact.exact].
      unfold Exact.of_literal. cbn [lit_mantissa lit_scale]. simpl Z.of_nat. simpl Z.pow.
      lra. }
    assert (H511 : (0 < nth 511 (lut_samples (pdf_table (F := R))) 0)%R).
    { unfold pdf_table. cbn [lut_samples].
      change (@flit R Exact.exact) with Exact.of_literal.
      rewrite (nth_indep _ 0%R (Exact.of_literal (Lit 0 0))) by (rewrite length_map; lia).
      rewrite map_nth.
      replace 0%R with (Exact.of_literal (Lit 0 0))
        by (unfold Exact.of_literal; cbn; lra).
      apply lit_ltb_sound. vm_compute. reflexivity. }
    split.
    + destruct (Nat.eq_dec i 511) as [-> | Hne]; [ exact H511 | ].
      pose proof (HR i 511%nat ltac:(lia)). lra.
    + destruct (Nat.eq_dec i 0) as [-> | Hne]; [ exact H0 | ].
      pose proof (HR 0%nat i ltac:(lia)). lra.
Qed.

Lemma pdf_table_decreasing_witness :
  fltb (nth 1 (lut_samples (pdf_table (F := spec_float))) (flit 0.0))
       (nth 0 (lut_samples (pdf_table (F := spec_float))) (flit 0.0)) = true
  /\ (nth 511 (lut_samples (pdf_table (F := R))) 0
      < nth 0 (lut_samples (pdf_table (F := R))) 0)%R.
Proof.
  split.
  - apply (proj1 pdf_table_decreasing 0%nat). lia.
  - apply (proj1 (proj2 pdf_table_decreasing) 0%nat 511%nat). lia.
Defined.

(** ** The table is the normal density *)

Section Exp_enclosure.

Local Open Scope R_scope.







End Exp_enclosure.

Section Table_is_normal_pdf.

Local Open Scope R_scope.










End Table_is_normal_pdf.

